(** * cudf packaging driver ([setup.py]): build orchestration and header install

    A shallow embedding of the repository's [setup.py]:
    - the module prologue that resolves the [cmake] executable,
    - [distutils_dir_name], the build-directory naming helper,
    - [CMakeBuildExt.build_extension], which drives [cmake] and [make],
    - [InstallHeaders.run], which copies a tree of headers,
    - the [version] string taken from the environment.

    Python strings are modelled as [string]; [os.environ] as a
    [gmap string string]; the calls into the Python library ([str.replace],
    [str.split], [os.path.join], [os.walk], [subprocess.check_call], ...)
    are modelled by the functions of the modules [Py] and [posixpath] below,
    following the library's documented behaviour on POSIX.

    Assumptions of the model: a file is identified with the spelling of its
    path; directory trees hold regular files and directories only (no
    symbolic link); the header trees are read from a snapshot that the
    installer does not write to; the operations on the file system succeed
    (in particular no directory stands where a header is to be copied, and
    the commands do not run with [dry_run]); a child process always starts,
    its exit status is given by the world, and what it does to the file
    system is not shown; [DISTUTILS_DEBUG] is not set. *)

From Stdlib Require Import Ascii DecimalString.
From stdpp Require Import gmap strings list.

(** ** Python [str] methods *)

Module Py.

(** [s.startswith(p)] *)
Fixpoint startswith (p s : string) : bool :=
  match p, s with
  | EmptyString, _ => true
  | String a p', String b s' => if Ascii.eqb a b then startswith p' s' else false
  | String _ _, EmptyString => false
  end.

(** [s.endswith(suf)]: some tail of [s] is [suf]. *)
Fixpoint endswith (suf s : string) : bool :=
  String.eqb s suf ||
  match s with
  | EmptyString => false
  | String _ s' => endswith suf s'
  end.

(** [s[n:]] *)
Fixpoint drop (n : nat) (s : string) : string :=
  match n, s with
  | O, _ => s
  | S _, EmptyString => EmptyString
  | S n', String _ s' => drop n' s'
  end.

(** The scan of [s.replace(old, new)] for a non-empty [old]: [skip] counts
    the characters of a match that are still to be passed over. *)
Fixpoint replace_scan (old new : string) (skip : nat) (s : string) : string :=
  match s with
  | EmptyString => EmptyString
  | String c s' =>
      match skip with
      | S k => replace_scan old new k s'
      | O =>
          if startswith old (String c s')
          then new +:+ replace_scan old new (String.length old - 1) s'
          else String c (replace_scan old new 0 s')
      end
  end.

(** With an empty [old], Python puts [new] before every character and at
    the end. *)
Fixpoint interleave (new s : string) : string :=
  match s with
  | EmptyString => new
  | String c s' => new +:+ String c (interleave new s')
  end.

(** [s.replace(old, new)]: every non-overlapping occurrence, leftmost
    first. *)
Definition replace (old new s : string) : string :=
  match old with
  | EmptyString => interleave new s
  | String _ _ => replace_scan old new 0 s
  end.

(** [s.split(sep)] for a one-character separator: empty fields are kept. *)
Fixpoint split (sep : ascii) (s : string) : list string :=
  match s with
  | EmptyString => [EmptyString]
  | String c s' =>
      if Ascii.eqb c sep then EmptyString :: split sep s'
      else match split sep s' with
           | t :: ts => String c t :: ts
           | [] => [String c EmptyString]
           end
  end.

(** [c in chars] *)
Fixpoint mem (c : ascii) (chars : string) : bool :=
  match chars with
  | EmptyString => false
  | String d chars' => Ascii.eqb c d || mem c chars'
  end.

(** [s.lstrip(chars)]: drops leading characters while they are in [chars]. *)
Fixpoint lstrip (chars s : string) : string :=
  match s with
  | EmptyString => EmptyString
  | String c s' => if mem c chars then lstrip chars s' else s
  end.

(** Truthiness of a string: [if x] holds for a non-empty [x]. *)
Definition truthy (s : string) : bool :=
  match s with EmptyString => false | String _ _ => true end.

(** [str(n)] and ["{}".format(n)] for a non-negative integer. *)
Definition str (n : nat) : string := NilZero.string_of_uint (Nat.to_uint n).

(** The ASCII white space on which [s.split()] (no argument) cuts. *)
Definition isspace (c : ascii) : bool :=
  let n := nat_of_ascii c in
  (Nat.eqb n 32 || (Nat.leb 9 n && Nat.leb n 13) || (Nat.leb 28 n && Nat.leb n 31)).

(** [s.split()]: cuts on runs of white space, no empty token. [cur] is the
    token being read. *)
Fixpoint split_ws_go (cur : string) (s : string) : list string :=
  match s with
  | EmptyString => if truthy cur then [cur] else []
  | String c s' =>
      if isspace c
      then (if truthy cur then cur :: split_ws_go EmptyString s'
            else split_ws_go EmptyString s')
      else split_ws_go (cur +:+ String c EmptyString) s'
  end.

Definition split_ws (s : string) : list string := split_ws_go EmptyString s.

End Py.

(** ** [os.path] on POSIX *)

Module posixpath.

(** [os.path.join(a, b)] *)
Definition join (a b : string) : string :=
  if Py.startswith "/" b then b
  else if negb (Py.truthy a) || Py.endswith "/" a then a +:+ b
  else a +:+ "/" +:+ b.


(** [p[:p.rfind('/') + 1]] *)
Fixpoint head (p : string) : string :=
  match p with
  | EmptyString => EmptyString
  | String c p' => if Py.mem "/"%char p then String c (head p') else EmptyString
  end.

(** [s.rstrip('/')] *)
Fixpoint rstrip_sep (s : string) : string :=
  match s with
  | EmptyString => EmptyString
  | String c s' =>
      let r := rstrip_sep s' in
      if Ascii.eqb c "/"%char && negb (Py.truthy r) then EmptyString else String c r
  end.

(** [os.path.dirname(p)]: the head is stripped of its trailing slashes
    unless it consists of slashes only. *)
Definition dirname (p : string) : string :=
  let h := head p in
  if Py.truthy (rstrip_sep h) then rstrip_sep h else h.

End posixpath.

(** ** The world the script runs in *)

(** A directory tree as [os.walk] sees it. Entries keep the order in which
    the directory is listed. *)
#[warnings="-register-all"] Inductive node : Type :=
| File (data : string)
| Dir (entries : list (string * node)).

(** What the script does to the outside world, in order. [ESpawn] is a
    process started with [subprocess.check_call]; [EStdBuild] is the build of
    a standard extension by [distutils], of which the compiler processes and
    the files they write are not shown. *)
Inductive event : Type :=
| EPrint (msg : string)
| ERmTree (path : string)
| EMakeDirs (path : string)
| ESpawn (argv : list string) (cwd : string) (env : gmap string string)
| EStdBuild (name : string)
| EMkPath (path : string)
| ECopyFile (src dst : string).

(** - [environ]: [os.environ];
    - [trees]: the directory tree found at a path, read by [os.walk] (the
      header trees are read from this snapshot; the installer writes to
      [files]);
    - [files]: the regular files written so far, by path;
    - [dirs]: the directories known to exist;
    - [exit_status]: the exit status a child process returns, given its
      arguments, working directory and what happened before;
    - [std_fails]: whether the compiler fails on a standard extension;
    - [log]: the trace of effects;
    - [mtime]: the modification time of the files of [files], by path;
    - [source_mtime]: the modification time of the files of the header
      trees, by path. *)
Record world : Type := World {
  environ : gmap string string;
  trees : gmap string node;
  files : gmap string string;
  dirs : gset string;
  exit_status : list string -> string -> list event -> Z;
  std_fails : string -> bool;
  log : list event;
  mtime : string -> Z;
  source_mtime : string -> Z
}.

Definition emit (e : event) (w : world) : world :=
  World (environ w) (trees w) (files w) (dirs w) (exit_status w) (std_fails w)
        (log w ++ [e]) (mtime w) (source_mtime w).

Definition set_environ (k v : string) (w : world) : world :=
  World (<[k := v]> (environ w)) (trees w) (files w) (dirs w) (exit_status w)
        (std_fails w) (log w) (mtime w) (source_mtime w).

Definition add_dir (p : string) (w : world) : world :=
  World (environ w) (trees w) (files w) ({[p]} ∪ dirs w) (exit_status w)
        (std_fails w) (log w) (mtime w) (source_mtime w).

Definition write_file (p data : string) (w : world) : world :=
  World (environ w) (trees w) (<[p := data]> (files w)) (dirs w) (exit_status w)
        (std_fails w) (log w) (mtime w) (source_mtime w).

(** [os.utime(p, (_, t))] *)
Definition set_mtime (p : string) (t : Z) (w : world) : world :=
  World (environ w) (trees w) (files w) (dirs w) (exit_status w) (std_fails w)
        (log w) (fun q => if String.eqb q p then t else mtime w q)
        (source_mtime w).

(** The path [k] is [p] or lies below it. *)
Definition under (p k : string) : bool :=
  String.eqb k p || Py.startswith (p +:+ "/") k.

(** The directory [p] and all that lies below it are gone. *)
Definition remove_tree (p : string) (w : world) : world :=
  World (environ w) (trees w)
        (filter (fun kv : string * string => under p kv.1 = false) (files w))
        (filter (fun k : string => under p k = false) (dirs w))
        (exit_status w) (std_fails w) (log w) (mtime w) (source_mtime w).

(** Exceptions that end the run. [SystemExit] carries an exit status or,
    as [SystemExitMessage], a message; the payload of [CompileError] stands
    for the message of the compiler. *)
Inductive error : Type :=
| SystemExit (code : Z)
| SystemExitMessage (msg : string)
| CalledProcessError (returncode : Z) (cmd : list string)
| CompileError (name : string).

(** A statement either completes or raises; both leave a world behind. *)
Inductive result (A : Type) : Type :=
| Ok (a : A) (w : world)
| Raise (e : error) (w : world).
Arguments Ok {A} a w.
Arguments Raise {A} e w.

Definition M (A : Type) : Type := world -> result A.

Definition ret {A} (a : A) : M A := fun w => Ok a w.

Definition bind {A B} (m : M A) (k : A -> M B) : M B :=
  fun w => match m w with
           | Ok a w' => k a w'
           | Raise e w' => Raise e w'
           end.

Definition raise {A} (e : error) : M A := fun w => Raise e w.

Definition effect (f : world -> world) : M unit := fun w => Ok tt (f w).

Definition get_environ : M (gmap string string) := fun w => Ok (environ w) w.

Notation "x <- m ;; k" := (bind m (fun x => k))
  (at level 100, m at next level, right associativity).
Notation "m ;;; k" := (bind m (fun _ => k))
  (at level 100, right associativity).

Definition final_world {A} (r : result A) : world :=
  match r with Ok _ w => w | Raise _ w => w end.

(** ** Library calls with an effect *)

(** [print(msg)] *)
Definition print (msg : string) : M unit := effect (emit (EPrint msg)).

(** [os.path.exists(p)] *)
Definition path_exists (p : string) : M bool :=
  fun w => Ok (bool_decide (p ∈ dirs w) || bool_decide (is_Some (files w !! p))) w.

(** [os.makedirs(p)] *)
Definition makedirs (p : string) : M unit :=
  effect (fun w => emit (EMakeDirs p) (add_dir p w)).

(** [shutil.rmtree(p, ignore_errors=True)] *)
Definition rmtree (p : string) : M unit :=
  effect (fun w => emit (ERmTree p) (remove_tree p w)).

(** [subprocess.check_call(argv, cwd=cwd, env=env)]: runs the child, waits
    for it, and raises [CalledProcessError] on a non-zero exit status. *)
Definition check_call (argv : list string) (cwd : string)
    (env : gmap string string) : M unit :=
  fun w =>
    let rc := exit_status w argv cwd (log w) in
    let w' := emit (ESpawn argv cwd env) w in
    if Z.eqb rc 0 then Ok tt w' else Raise (CalledProcessError rc argv) w'.

(** [os.environ.get(key, dflt)] *)
Definition environ_get (env : gmap string string) (key dflt : string) : string :=
  default dflt (env !! key).

(** ** The module prologue *)

(** [CMAKE_EXE = os.environ.get('CMAKE_EXE', shutil.which('cmake'))], where
    [which] is the value of [shutil.which('cmake')]: [None] when the search
    path has no [cmake]. *)
Definition resolve_cmake_exe (env : gmap string string) (which : option string)
    : option string :=
  match env !! "CMAKE_EXE" with
  | Some v => Some v
  | None => which
  end.

(** [not x] for [x] a string or [None]. *)
Definition falsy (x : option string) : bool :=
  match x with
  | None => true
  | Some v => negb (Py.truthy v)
  end.

Definition missing_cmake_message : string :=
  "cmake executable not found. Set CMAKE_EXE environment or update your path".

(** [distutils_dir_name(dname)]; [platform] is [sysconfig.get_platform()]
    and [version] the first two fields of [sys.version_info]. *)
Definition distutils_dir_name (dname platform : string) (version : nat * nat)
    : string :=
  posixpath.join "build"
    (dname +:+ "." +:+ platform +:+ "-" +:+ Py.str version.1 +:+ "." +:+
     Py.str version.2).

(** [version = os.environ.get('GIT_DESCRIBE_TAG', '0.0.0.dev0').lstrip('v')] *)
Definition version (env : gmap string string) : string :=
  Py.lstrip "v" (environ_get env "GIT_DESCRIBE_TAG" "0.0.0.dev0").

(** [cuda_version = ''.join(os.environ.get('CUDA', 'unknown').split('.')[:2])] *)
Definition cuda_version (env : gmap string string) : string :=
  String.concat "" (take 2 (Py.split "."%char (environ_get env "CUDA" "unknown"))).

(** ** Extension descriptors *)

Module CMakeExtension.
Record t : Type := Make { name : string; sourcedir : string }.

(** [CMakeExtension.__init__(self, name, sourcedir='')] *)
Definition init (abspath : string -> string) (name sourcedir : string) : t :=
  Make name (abspath sourcedir).
End CMakeExtension.

(** An ordinary [Extension], built by the compiler of [distutils]. *)
Module Extension.
Record t : Type := Make {
  name : string;
  sources : list string;
  include_dirs : list string;
  library_dirs : list string;
  libraries : list string;
  language : string;
  extra_compile_args : list string
}.
End Extension.

(** The two kinds of entries of [ext_modules], told apart in the source by
    [isinstance(ext, CMakeExtension)]. *)
Inductive descriptor : Type :=
| Native (ext : CMakeExtension.t)
| Standard (ext : Extension.t).

(** ** [CMakeBuildExt] *)

(** The fields of the [build_ext] command that the script and the loop of
    [distutils] read; [parallel] is the number of workers asked for with
    [-j] or [--parallel], [0] when the option is not given. *)
Record build_ext : Type := MakeBuildExt {
  debug : bool;
  build_temp : string;
  get_ext_fullpath : string -> string;
  parallel : nat
}.

(** The command without the option [--parallel], as [initialize_options]
    leaves it. *)
Definition BuildExt (debug : bool) (build_temp : string)
    (get_ext_fullpath : string -> string) : build_ext :=
  MakeBuildExt debug build_temp get_ext_fullpath 0.

Section CMakeBuildExt.

(** [os.path.abspath], which depends on the working directory. *)
Variable abspath : string -> string.

(** The module global [CMAKE_EXE], set by the prologue. *)
Variable CMAKE_EXE : string.

Definition build_type (self : build_ext) : string :=
  if debug self then "Debug" else "Release".

Definition output_dir (self : build_ext) (ext : CMakeExtension.t) : string :=
  abspath (posixpath.dirname (get_ext_fullpath self (CMakeExtension.name ext))).

(** The list comprehension over [CMAKE_COMMON_VARIABLES]. *)
Definition common_variables (env : gmap string string) : list string :=
  List.filter Py.truthy
    (Py.split " "%char (environ_get env "CMAKE_COMMON_VARIABLES" "")).

(** The value of the local [cmake_args] once it has been extended. *)
Definition cmake_args (self : build_ext) (ext : CMakeExtension.t)
    (env : gmap string string) : list string :=
  [CMAKE_EXE;
   CMakeExtension.sourcedir ext;
   "-DCMAKE_LIBRARY_OUTPUT_DIRECTORY=" +:+ output_dir self ext;
   "-DCMAKE_BUILD_TYPE=" +:+ build_type self]
  ++ common_variables env.

(** [super().build_extension(ext)]: the compiler of [distutils] is run on
    the extension and may fail. [EStdBuild] marks the call; the processes of
    the compiler and the files they write are not shown. *)
Definition std_build_extension (ext : Extension.t) : M unit :=
  fun w =>
    let w' := emit (EStdBuild (Extension.name ext)) w in
    if std_fails w (Extension.name ext)
    then Raise (CompileError (Extension.name ext)) w'
    else Ok tt w'.

(** [CMakeBuildExt.build_extension(self, ext)] *)
Definition build_extension (self : build_ext) (ext : descriptor) : M unit :=
  match ext with
  | Native ext =>
      cur <- get_environ ;;
      let args := cmake_args self ext cur in
      env <- get_environ ;;
      present <- path_exists (build_temp self) ;;
      (if present then ret tt else makedirs (build_temp self)) ;;;
      check_call args (build_temp self) env ;;;
      check_call ["make"; "-j"; CMakeExtension.name ext] (build_temp self) env ;;;
      print ""
  | Standard ext => std_build_extension ext
  end.

(** [build_ext._build_extensions_serial] of [distutils], which
    [CMakeBuildExt] inherits: the descriptors are built one after the other,
    in the order of registration; [CalledProcessError] is not among the
    exceptions that the loop handles, and the extensions of the script are
    not [optional], so an exception ends the loop. *)
Fixpoint build_extensions_serial (self : build_ext) (exts : list descriptor)
    : M unit :=
  match exts with
  | [] => ret tt
  | ext :: rest => build_extension self ext ;;; build_extensions_serial self rest
  end.

(** [build_ext._build_extensions_parallel]: every descriptor is submitted to
    a pool of worker threads before any result is read, so all of them are
    built; the results are then read in the order of registration and the
    first exception is raised once the pool has shut down. The builds are
    run here one after the other, which is the schedule of a pool of one
    worker ([-j 1]); with more workers the steps of different descriptors
    interleave. *)
Fixpoint build_extensions_parallel (self : build_ext) (exts : list descriptor)
    : M unit :=
  match exts with
  | [] => ret tt
  | ext :: rest =>
      fun w =>
        match build_extension self ext w with
        | Ok _ w1 => build_extensions_parallel self rest w1
        | Raise e w1 =>
            Raise e (final_world (build_extensions_parallel self rest w1))
        end
  end.

(** [build_ext.build_extensions]: [if self.parallel: ... else: ...] *)
Definition build_extensions (self : build_ext) (exts : list descriptor) : M unit :=
  if Nat.eqb (parallel self) 0 then build_extensions_serial self exts
  else build_extensions_parallel self exts.

End CMakeBuildExt.

(** ** [InstallHeaders] *)

(** The fields of the [install_headers] command that [run] and
    [copy_file] use. *)
Record install_headers : Type := MakeInstallHeaders {
  install_dir : string;
  outfiles : list string;
  force : bool
}.

(** The command without the option [--force], as [initialize_options]
    leaves it. *)
Definition InstallHeaders (install_dir : string) (outfiles : list string)
    : install_headers :=
  MakeInstallHeaders install_dir outfiles false.

(** The names of the sub-directories of a directory, as [os.walk] lists them. *)
Fixpoint dirnames (entries : list (string * node)) : list string :=
  match entries with
  | [] => []
  | (name, Dir _) :: rest => name :: dirnames rest
  | (_, File _) :: rest => dirnames rest
  end.

(** The names of the other entries; each one comes with the bytes that
    reading the file at [os.path.join(dirpath, name)] gives. *)
Fixpoint filenames (entries : list (string * node)) : list (string * string) :=
  match entries with
  | [] => []
  | (name, File data) :: rest => (name, data) :: filenames rest
  | (_, Dir _) :: rest => filenames rest
  end.

(** [os.walk(top)], top-down: a directory first, then each of its
    sub-directories in turn. Nothing is produced when [top] is not a
    directory. *)
Fixpoint walk (top : string) (n : node)
    : list (string * list string * list (string * string)) :=
  match n with
  | File _ => []
  | Dir entries =>
      (top, dirnames entries, filenames entries) ::
      flat_map (fun e => walk (posixpath.join top e.1) e.2) entries
  end.

Definition os_walk (w : world) (top : string)
    : list (string * list string * list (string * string)) :=
  match trees w !! top with
  | Some n => walk top n
  | None => []
  end.

(** [self.mkpath(name)] *)
Definition mkpath (name : string) (w : world) : world :=
  emit (EMkPath name) (add_dir name w).

(** [dep_util.newer(source, target)]: the target is missing, or the source
    was modified strictly later. *)
Definition newer (source target : string) (w : world) : bool :=
  match files w !! target with
  | None => true
  | Some _ => Z.ltb (mtime w target) (source_mtime w source)
  end.

(** Whether [self.copy_file(infile, outfile)] writes: [file_util.copy_file]
    is called with [update = not self.force] and returns early when
    [update and not newer(src, dst)]. *)
Definition copies (self : install_headers) (infile outfile : string) (w : world)
    : bool :=
  force self || newer infile outfile w.

(** [self.copy_file(infile, outfile)], where [data] is the content of
    [infile]: when it copies, the bytes are written to [outfile], which gets
    the modification time of [infile]; the name of [outfile] is returned in
    both cases. [ECopyFile] marks the call. *)
Definition copy_file (self : install_headers) (infile data outfile : string)
    (w : world) : string * world :=
  let w1 := emit (ECopyFile infile outfile) w in
  if copies self infile outfile w
  then (outfile, set_mtime outfile (source_mtime w infile) (write_file outfile data w1))
  else (outfile, w1).

(** The body of the innermost loop of [run], for one entry of [filenames]. *)
Definition install_file (header dirpath : string)
    (st : install_headers * world) (f : string * string) : install_headers * world :=
  let '(self, w) := st in
  let '(file, data) := f in
  if Py.endswith ".h" file then
    let path := posixpath.join dirpath file in
    let install_target :=
      posixpath.join (install_dir self) (Py.replace header "" path) in
    let w1 := mkpath (posixpath.dirname install_target) w in
    let '(out, w2) := copy_file self path data install_target w1 in
    (MakeInstallHeaders (install_dir self) (outfiles self ++ [out]) (force self), w2)
  else st.

(** The body of the loop over [os.walk(header)]. *)
Definition install_dirpath (header : string) (st : install_headers * world)
    (t : string * list string * list (string * string)) : install_headers * world :=
  let '(dirpath, _, names) := t in
  foldl (install_file header dirpath) st names.

(** The body of the loop over [headers]. *)
Definition install_header (st : install_headers * world) (header : string)
    : install_headers * world :=
  foldl (install_dirpath header) st (os_walk st.2 header).

(** [InstallHeaders.run(self)], with [headers] the value of
    [self.distribution.headers] (an empty list stands for [None] as well). *)
Definition run (self : install_headers) (headers : list string) (w : world)
    : install_headers * world :=
  match headers with
  | [] => (self, w)
  | _ :: _ => foldl install_header (self, mkpath (install_dir self) w) headers
  end.

(** ** The script *)

(** The commands that [setup] may be asked to run and that the script
    overrides through [cmdclass]. *)
Inductive command : Type :=
| build_ext_command (self : build_ext)
| install_headers_command (self : install_headers).

Section Script.

Variable abspath : string -> string.

(** [get_python_lib()], [sysconfig.get_platform()], [sys.version_info]. *)
Variable python_lib : string.
Variable platform : string.
Variable version_info : nat * nat.

(** [Cython.Build.cythonize] *)
Variable cythonize : list descriptor -> list descriptor.

Definition extensions : list descriptor :=
  [Native (CMakeExtension.init abspath "rmm" "cpp");
   Native (CMakeExtension.init abspath "cudf" "cpp");
   Standard (Extension.Make "*"
               ["python/cudf/bindings/*.pyx"]
               ["cpp/include/"; "thirdparty/dlpack/include/dlpack"]
               [python_lib; distutils_dir_name "lib" platform version_info]
               ["cudf"] "c++" ["-std=c++11"])].

(** [Distribution.run_commands()]: the commands of the command line run in
    order, each with the class given in [cmdclass], and an exception ends the
    run. Of the commands, the two that the script overrides are shown. *)
Fixpoint run_commands (CMAKE_EXE : string) (ext_modules : list descriptor)
    (headers : list string) (commands : list command) : M unit :=
  match commands with
  | [] => ret tt
  | build_ext_command self :: rest =>
      build_extensions abspath CMAKE_EXE self ext_modules ;;;
      run_commands CMAKE_EXE ext_modules headers rest
  | install_headers_command self :: rest =>
      effect (fun w => (run self headers w).2) ;;;
      run_commands CMAKE_EXE ext_modules headers rest
  end.

(** [setup(...)]: [distutils.core.setup] runs the commands and turns an
    error of the compiler into [SystemExit("error: ...")]; a
    [CalledProcessError] passes through. *)
Definition setup (CMAKE_EXE : string) (ext_modules : list descriptor)
    (headers : list string) (commands : list command) : M unit :=
  fun w =>
    match run_commands CMAKE_EXE ext_modules headers commands w with
    | Raise (CompileError msg) w' => Raise (SystemExitMessage ("error: " +:+ msg)) w'
    | r => r
    end.

(** The statements of the module, top to bottom; [which] is the value of
    [shutil.which('cmake')]. *)
Definition setup_py (which : option string) (commands : list command) : M unit :=
  effect (set_environ "RMM_HEADER" "cpp/thirdparty/rmm/include/rmm/rmm_api.h") ;;;
  effect (set_environ "CUDF_INCLUDE_DIR" "cpp/include/cudf") ;;;
  env <- get_environ ;;
  let exe := resolve_cmake_exe env which in
  if falsy exe then
    print missing_cmake_message ;;;
    raise (SystemExit 1)
  else
    rmtree "build" ;;;
    setup (default "" exe) (cythonize extensions) ["cpp/include/"] commands.

End Script.

(** ** Notions used to state the properties *)

(** The events a statement added to the trace of [w]. *)
Definition trace_since {A} (w : world) (r : result A) : list event :=
  drop (length (log w)) (log (final_world r)).

(** The argument lists of the child processes of a trace. *)
Fixpoint spawned (evs : list event) : list (list string) :=
  match evs with
  | [] => []
  | ESpawn argv _ _ :: rest => argv :: spawned rest
  | _ :: rest => spawned rest
  end.

(** The extensions handed to the compiler of [distutils] in a trace. *)
Fixpoint std_built (evs : list event) : list string :=
  match evs with
  | [] => []
  | EStdBuild name :: rest => name :: std_built rest
  | _ :: rest => std_built rest
  end.

(** The world in which [build_extension] starts the configure step. *)
Definition before_configure (self : build_ext) (w : world) : world :=
  if bool_decide (build_temp self ∈ dirs w)
     || bool_decide (is_Some (files w !! build_temp self))
  then w
  else emit (EMakeDirs (build_temp self)) (add_dir (build_temp self) w).

(** The exit status of the configure step of [ext] started from [w]. *)
Definition configure_status (abspath : string -> string) (CMAKE_EXE : string)
    (self : build_ext) (ext : CMakeExtension.t) (w : world) : Z :=
  exit_status w (cmake_args abspath CMAKE_EXE self ext (environ w))
    (build_temp self) (log (before_configure self w)).

(** The exit status of the build step of [ext], run after its configure
    step. *)
Definition make_status (abspath : string -> string) (CMAKE_EXE : string)
    (self : build_ext) (ext : CMakeExtension.t) (w : world) : Z :=
  exit_status w ["make"; "-j"; CMakeExtension.name ext] (build_temp self)
    (log (before_configure self w) ++
     [ESpawn (cmake_args abspath CMAKE_EXE self ext (environ w))
        (build_temp self) (environ w)]).

(** The path format as the specification words it. *)
Definition build_dir_format (dname platform : string) (version : nat * nat)
    : string :=
  "build/" +:+ dname +:+ "." +:+ platform +:+ "-" +:+ Py.str version.1 +:+ "." +:+
  Py.str version.2.

(** The tag with one leading [v] removed, as the specification words it. *)
Definition strip_leading_v (t : string) : string :=
  match t with
  | String c t' => if Ascii.eqb c "v"%char then t' else t
  | EmptyString => t
  end.

(** The generator arguments as the specification words them: the tail is
    cut on white space. *)
Definition generator_arguments_spec (abspath : string -> string)
    (CMAKE_EXE : string) (self : build_ext) (ext : CMakeExtension.t)
    (env : gmap string string) : list string :=
  [CMAKE_EXE;
   CMakeExtension.sourcedir ext;
   "-DCMAKE_LIBRARY_OUTPUT_DIRECTORY=" +:+ output_dir abspath self ext;
   "-DCMAKE_BUILD_TYPE=" +:+ (if debug self then "Debug" else "Release")]
  ++ Py.split_ws (environ_get env "CMAKE_COMMON_VARIABLES" "").

(** All the white space of [s] is the space character. *)
Fixpoint only_spaces (s : string) : bool :=
  match s with
  | EmptyString => true
  | String c s' => (negb (Py.isspace c) || Ascii.eqb c " "%char) && only_spaces s'
  end.

(** Puts [t] in front of the first field. *)
Definition prepend (t : string) (l : list string) : list string :=
  match l with
  | [] => [t]
  | x :: xs => (t +:+ x) :: xs
  end.

(** [n] copies of the character [c]. *)
Fixpoint repeat_char (c : ascii) (n : nat) : string :=
  match n with
  | O => EmptyString
  | S n' => String c (repeat_char c n')
  end.

(** The directory with entries [entries] lies under the node [n] walked
    from [top]: [ds] are the names of the directories passed on the way down
    and [dirpath] is the path [os.walk] reports for it. *)
Inductive subdir
    : string -> node -> list string -> string -> list (string * node) -> Prop :=
| subdir_top top entries :
    subdir top (Dir entries) [] top entries
| subdir_step top entries0 name child ds dirpath entries :
    In (name, child) entries0 ->
    subdir (posixpath.join top name) child ds dirpath entries ->
    subdir top (Dir entries0) (name :: ds) dirpath entries.

(** A name of a directory entry: not empty, without a slash. *)
Definition valid_name (name : string) : Prop :=
  Py.truthy name = true /\ Py.mem "/"%char name = false.

(** [old in s] for strings. *)
Fixpoint occurs (old s : string) : bool :=
  Py.startswith old s ||
  match s with
  | EmptyString => false
  | String _ s' => occurs old s'
  end.

(** One copy made by [run]: source path, destination path, bytes. *)
Definition install : Type := string * string * string.

Definition install_dst (i : install) : string := i.1.2.

(** The copies [run] makes for the entries [names] of one directory. *)
Definition file_installs (dir header dirpath : string)
    (names : list (string * string)) : list install :=
  flat_map (fun f : string * string =>
              if Py.endswith ".h" f.1 then
                let path := posixpath.join dirpath f.1 in
                [(path, posixpath.join dir (Py.replace header "" path), f.2)]
              else []) names.

(** The copies [run] makes for one header root, in order. *)
Definition header_installs (dir : string) (w : world) (header : string)
    : list install :=
  flat_map (fun t : string * list string * list (string * string) =>
              file_installs dir header t.1.1 t.2) (os_walk w header).

(** The copies [run] makes in all, in order. *)
Definition installs (dir : string) (w : world) (headers : list string)
    : list install :=
  flat_map (header_installs dir w) headers.

(** The effect of one copy. *)
Definition do_install (st : install_headers * world) (i : install)
    : install_headers * world :=
  let w1 := mkpath (posixpath.dirname (install_dst i)) st.2 in
  (MakeInstallHeaders (install_dir st.1) (outfiles st.1 ++ [install_dst i])
     (force st.1),
   (copy_file st.1 i.1.1 i.2 (install_dst i) w1).2).

(** The events of one copy. *)
Definition install_events (i : install) : list event :=
  [EMkPath (posixpath.dirname (install_dst i)); ECopyFile i.1.1 (install_dst i)].


(** Number of records of [outfiles] for the destination [t]. *)
Definition records_for (t : string) (outs : list string) : nat :=
  length (List.filter (String.eqb t) outs).

(** A world with the given environment and trees and nothing else; every
    child process returns [rc] and every file has the modification time
    [0]. *)
Definition fresh_world (env : gmap string string) (tr : gmap string node)
    (rc : Z) : world :=
  World env tr ∅ ∅ (fun _ _ _ => rc) (fun _ => false) [] (fun _ => 0%Z)
        (fun _ => 0%Z).

(** Two header roots that both hold a file [x.h], with different bytes. *)
Definition two_roots_world : world :=
  fresh_world ∅
    (<["a/" := Dir [("x.h", File "int a;")]]>
       (<["b/" := Dir [("x.h", File "int b;")]]> ∅)) 0.

(** A header root declared without a trailing slash. *)
Definition no_slash_world : world :=
  fresh_world ∅
    (<["cpp/include" := Dir [("cudf", Dir [("types.h", File "typedef int gdf_size_type;")])]]> ∅)
    0.

(** A header root whose name occurs again below it. *)
Definition nested_name_world : world :=
  fresh_world ∅
    (<["a/" := Dir [("x.h", File "int top;");
                    ("a", Dir [("x.h", File "int nested;")])]]> ∅) 0.

(** The header root of the script, with a header in a sub-directory and
    files that are not headers. *)
Definition include_world : world :=
  fresh_world ∅
    (<["cpp/include/" :=
         Dir [("cudf", Dir [("types.h", File "typedef int gdf_size_type;");
                            ("types.hpp", File "#pragma once")]);
              ("README.md", File "headers")]]> ∅) 0.

(** Two roots that share a relative path leave one record for the
    destination [t], whose content is [d], as the specification states it. *)
Definition single_record (self : install_headers) (headers : list string)
    (w : world) (t d : string) : Prop :=
  records_for t (outfiles (run self headers w).1) = 1 /\
  files (run self headers w).2 !! t = Some d.

(** ** Further notions: the orchestrator *)

(** Whether the build directory of the command exists in [w]. *)
Definition temp_exists (self : build_ext) (w : world) : bool :=
  bool_decide (build_temp self ∈ dirs w)
  || bool_decide (is_Some (files w !! build_temp self)).

(** The events of [build_extension] for a native descriptor started in [w],
    read off its statements: the directory is made when it is missing, the
    configure step runs, the build step runs after a configure step that
    returned zero, and the empty line is printed after a build step that
    returned zero. *)
Definition native_events (abspath : string -> string) (CMAKE_EXE : string)
    (self : build_ext) (ext : CMakeExtension.t) (w : world) : list event :=
  (if temp_exists self w then [] else [EMakeDirs (build_temp self)])
  ++ ESpawn (cmake_args abspath CMAKE_EXE self ext (environ w)) (build_temp self)
       (environ w)
  :: (if Z.eqb (configure_status abspath CMAKE_EXE self ext w) 0 then
        ESpawn ["make"; "-j"; CMakeExtension.name ext] (build_temp self) (environ w)
        :: (if Z.eqb (make_status abspath CMAKE_EXE self ext w) 0
            then [EPrint ""] else [])
      else []).

(** What the orchestrator did for a descriptor. *)
Inductive step : Type :=
| NativeStep (name : string)
| StdStep (name : string).

Definition step_of (ext : descriptor) : step :=
  match ext with
  | Native e => NativeStep (CMakeExtension.name e)
  | Standard e => StdStep (Extension.name e)
  end.

(** The target of a command line [make -j target]. *)
Definition make_target (argv : list string) : option string :=
  match argv with
  | [a; b; n] => if String.eqb a "make" && String.eqb b "-j" then Some n else None
  | _ => None
  end.

(** The build steps of a trace, in order: the [make] runs and the standard
    builds. *)
Fixpoint build_steps (evs : list event) : list step :=
  match evs with
  | [] => []
  | ESpawn argv _ _ :: rest =>
      match make_target argv with
      | Some n => NativeStep n :: build_steps rest
      | None => build_steps rest
      end
  | EStdBuild n :: rest => StdStep n :: build_steps rest
  | _ :: rest => build_steps rest
  end.

(** The directories made with [os.makedirs] in a trace. *)
Fixpoint made_dirs (evs : list event) : list string :=
  match evs with
  | [] => []
  | EMakeDirs p :: rest => p :: made_dirs rest
  | _ :: rest => made_dirs rest
  end.

(** The processes started with [subprocess.check_call] in a trace, with
    working directory and environment. *)
Fixpoint children (evs : list event)
    : list (list string * string * gmap string string) :=
  match evs with
  | [] => []
  | ESpawn argv cwd env :: rest => (argv, cwd, env) :: children rest
  | _ :: rest => children rest
  end.

(** The trees removed with [shutil.rmtree] in a trace. *)
Fixpoint removed_trees (evs : list event) : list string :=
  match evs with
  | [] => []
  | ERmTree p :: rest => p :: removed_trees rest
  | _ :: rest => removed_trees rest
  end.

(** The events of [build_extension] for any descriptor started in [w]. *)
Definition ext_events (abspath : string -> string) (CMAKE_EXE : string)
    (self : build_ext) (ext : descriptor) (w : world) : list event :=
  match ext with
  | Native e => native_events abspath CMAKE_EXE self e w
  | Standard e => [EStdBuild (Extension.name e)]
  end.

(** ** Further notions: the script *)

(** An event that the commands of [setup] may produce when the generator is
    [exe] and the environment is [env]: a process started with
    [subprocess.check_call] is the generator or [make] and gets [env]; no
    tree is removed. *)
Definition script_event (exe : string) (env : gmap string string) (e : event)
    : Prop :=
  match e with
  | ESpawn argv _ env' =>
      env' = env /\ (head argv = Some exe \/ head argv = Some "make")
  | ERmTree _ => False
  | _ => True
  end.

(** The environment after the two assignments of the prologue. *)
Definition prologue_environ (env : gmap string string) : gmap string string :=
  <["CUDF_INCLUDE_DIR" := "cpp/include/cudf"]>
    (<["RMM_HEADER" := "cpp/thirdparty/rmm/include/rmm/rmm_api.h"]> env).

(** [name = 'cudf-cuda{}'.format(cuda_version)] *)
Definition package_name (env : gmap string string) : string :=
  "cudf-cuda" +:+ cuda_version env.

(** The requirement appended to [install_requires]. *)
Definition nvstrings_requirement (env : gmap string string) : string :=
  "nvstrings-cuda" +:+ cuda_version env.

(** ** Notions for the generator arguments and for a failed build *)

(** The command line of the configure step that [build_extension] starts
    for a native descriptor in [w]. *)
Definition configure_argv (abspath : string -> string) (CMAKE_EXE : string)
    (self : build_ext) (ext : CMakeExtension.t) (w : world) : list string :=
  hd [] (spawned (trace_since w
                    (build_extension abspath CMAKE_EXE self (Native ext) w))).

(** Two calls for the same descriptor by commands with the same debug flag
    give the generator the same first four arguments, as the specification
    states it. *)
Definition same_first_arguments (abspath : string -> string) (CMAKE_EXE : string)
    (self1 self2 : build_ext) (ext : CMakeExtension.t) (w1 w2 : world) : Prop :=
  debug self1 = debug self2 ->
  take 4 (configure_argv abspath CMAKE_EXE self1 ext w1)
    = take 4 (configure_argv abspath CMAKE_EXE self2 ext w2).

(** A failure of the native descriptor [ext] ends the run, as the
    specification states it: when the run over the descriptors up to [ext]
    raises [CalledProcessError], the run over the whole list starts the same
    child processes and the same standard builds, and nothing for the
    descriptors [post]. *)
Definition failure_ends_run (abspath : string -> string) (CMAKE_EXE : string)
    (self : build_ext) (pre : list descriptor) (ext : CMakeExtension.t)
    (post : list descriptor) (w : world) : Prop :=
  (exists rc cmd w',
     build_extensions abspath CMAKE_EXE self (pre ++ [Native ext]) w
       = Raise (CalledProcessError rc cmd) w') ->
  spawned (trace_since w
             (build_extensions abspath CMAKE_EXE self (pre ++ Native ext :: post) w))
    = spawned (trace_since w
                 (build_extensions abspath CMAKE_EXE self (pre ++ [Native ext]) w))
  /\ std_built (trace_since w
                  (build_extensions abspath CMAKE_EXE self (pre ++ Native ext :: post) w))
     = std_built (trace_since w
                    (build_extensions abspath CMAKE_EXE self (pre ++ [Native ext]) w)).

(** ** Notions for the copies of the installer *)

(** Whether the copy [i], made in the state [st], writes its destination. *)
Definition install_copies (st : install_headers * world) (i : install) : bool :=
  copies st.1 i.1.1 (install_dst i) st.2.

(** The copies of [l] whose destination is [t]. *)
Definition to_dst (t : string) (l : list install) : list install :=
  List.filter (fun i => String.eqb (install_dst i) t) l.

(** The two roots of [two_roots_world], the file of the second one being
    the more recent. *)
Definition two_roots_newer_world : world :=
  World ∅
    (<["a/" := Dir [("x.h", File "int a;")]]>
       (<["b/" := Dir [("x.h", File "int b;")]]> ∅))
    ∅ ∅ (fun _ _ _ => 0%Z) (fun _ => false) [] (fun _ => 0%Z)
    (fun p => if String.eqb p "b/x.h" then 1%Z else 0%Z).

(** * Properties *)

#[local] Arguments String.append !_ _ / : simpl nomatch.
#[local] Arguments Ascii.eqb : simpl never.
#[local] Arguments String.eqb : simpl never.

(** Unfolds the operations of the monad. *)
Ltac run_m :=
  unfold bind, ret, effect, raise, get_environ, path_exists, makedirs, print,
    check_call, rmtree.

(** ** The library functions on examples *)

Example replace_all_occurrences : Py.replace "ab" "" "abcabdab" = "cd".
Proof. reflexivity. Qed.

Example replace_leftmost_first : Py.replace "aa" "b" "aaa" = "ba".
Proof. reflexivity. Qed.

Example replace_empty_old : Py.replace "" "-" "ab" = "-a-b-".
Proof. reflexivity. Qed.

Example split_keeps_empty : Py.split " "%char "a  b " = ["a"; ""; "b"; ""].
Proof. reflexivity. Qed.

Example split_ws_example : Py.split_ws "  a  b c " = ["a"; "b"; "c"].
Proof. reflexivity. Qed.

Example join_examples :
  posixpath.join "build" "lib" = "build/lib" /\
  posixpath.join "build/" "lib" = "build/lib" /\
  posixpath.join "build" "/lib" = "/lib" /\
  posixpath.join "" "lib" = "lib".
Proof. repeat split. Qed.

Example dirname_examples :
  posixpath.dirname "a/b/c.h" = "a/b" /\
  posixpath.dirname "/c.h" = "/" /\
  posixpath.dirname "c.h" = "" /\
  posixpath.dirname "a//c.h" = "a".
Proof. repeat split. Qed.

(** ** Strings *)

Lemma startswith_refl_app p s : Py.startswith p (p +:+ s) = true.
Proof.
  induction p as [|a p IH]; simpl; [reflexivity|].
  rewrite Ascii.eqb_refl. exact IH.
Qed.

Lemma startswith_slash_app d r :
  Py.startswith "/" (d +:+ "." +:+ r) = Py.startswith "/" d.
Proof. destruct d; reflexivity. Qed.

Lemma app_empty_r s : s +:+ "" = s.
Proof. induction s as [|c s IH]; simpl; [reflexivity | now f_equal]. Qed.

Lemma app_assoc_str a b c : (a +:+ b) +:+ c = a +:+ b +:+ c.
Proof. induction a as [|x a IH]; simpl; [reflexivity | now f_equal]. Qed.

Lemma endswith_app_r suf a b :
  Py.endswith suf b = true -> Py.endswith suf (a +:+ b) = true.
Proof.
  intros H. induction a as [|c a IH]; simpl; [exact H|].
  rewrite IH. apply orb_true_r.
Qed.

Lemma endswith_self suf : Py.endswith suf suf = true.
Proof. destruct suf; simpl; rewrite ?String.eqb_refl, ?Ascii.eqb_refl; reflexivity. Qed.

Lemma endswith_spec suf s :
  Py.endswith suf s = true <-> exists pre, s = pre +:+ suf.
Proof.
  split.
  - induction s as [|c s IH]; cbn [Py.endswith]; intros H.
    + rewrite orb_false_r in H. apply String.eqb_eq in H. now exists "".
    + apply orb_true_iff in H as [H|H].
      * apply String.eqb_eq in H. now exists "".
      * destruct (IH H) as [pre ->]. now exists (String c pre).
  - intros [pre ->]. apply endswith_app_r, endswith_self.
Qed.

Lemma endswith_join suf a f :
  Py.endswith suf f = true -> Py.endswith suf (posixpath.join a f) = true.
Proof.
  intros H. unfold posixpath.join.
  destruct (Py.startswith "/" f); [exact H|].
  destruct (negb (Py.truthy a) || Py.endswith "/" a).
  - now apply endswith_app_r.
  - apply endswith_app_r. now apply (endswith_app_r suf "/" f).
Qed.

(** ** The build-directory name *)

Lemma distutils_dir_name_relative dname platform v :
  Py.startswith "/" dname = false ->
  distutils_dir_name dname platform v = build_dir_format dname platform v.
Proof.
  intros H. unfold distutils_dir_name, build_dir_format, posixpath.join.
  rewrite startswith_slash_app, H. reflexivity.
Qed.

(** C4, as the specification states it, fails for a name that starts with a
    slash: [os.path.join] then drops the [build] directory. *)
Lemma distutils_dir_name_absolute_name :
  distutils_dir_name "/opt/lib" "linux-x86_64" (3, 7)
    = "/opt/lib.linux-x86_64-3.7" /\
  distutils_dir_name "/opt/lib" "linux-x86_64" (3, 7)
    <> build_dir_format "/opt/lib" "linux-x86_64" (3, 7).
Proof. split; [reflexivity | discriminate]. Qed.

(** C4 (amended): for every logical name that does not start with a slash,
    every platform tag and every interpreter version, [distutils_dir_name]
    returns [build/{name}.{platform}-{major}.{minor}]; in particular the name
    for [rmm] on [linux-x86_64] with Python 3.7 is
    [build/rmm.linux-x86_64-3.7]. *)
Theorem distutils_dir_name_format dname platform (v : nat * nat) :
  Py.startswith "/" dname = false ->
  distutils_dir_name dname platform v
    = "build/" +:+ dname +:+ "." +:+ platform +:+ "-" +:+ Py.str v.1 +:+ "." +:+
      Py.str v.2
  /\ distutils_dir_name "rmm" "linux-x86_64" (3, 7) = "build/rmm.linux-x86_64-3.7".
Proof.
  intros H. split; [|reflexivity].
  now rewrite distutils_dir_name_relative.
Qed.

(** The name of the [lib] directory that the script asks for. *)
Lemma distutils_dir_name_format_witness :
  distutils_dir_name "lib" "linux-x86_64" (3, 6) = "build/lib.linux-x86_64-3.6"
  /\ distutils_dir_name "rmm" "linux-x86_64" (3, 7) = "build/rmm.linux-x86_64-3.7".
Proof.
  exact (distutils_dir_name_format "lib" "linux-x86_64" (3, 6) eq_refl).
Defined.

(** ** The release version *)

Lemma lstrip_v_id s : Py.startswith "v" s = false -> Py.lstrip "v" s = s.
Proof.
  destruct s as [|c s]; simpl; [reflexivity|].
  rewrite (Ascii.eqb_sym c), orb_false_r.
  destruct (Ascii.eqb "v" c); [intros [=] | reflexivity].
Qed.

Lemma lstrip_v_spec t :
  (exists n, t = repeat_char "v" n +:+ Py.lstrip "v" t) /\
  Py.startswith "v" (Py.lstrip "v" t) = false.
Proof.
  induction t as [|c t [[n Hn] Hs]]; simpl.
  - split; [now exists 0 | reflexivity].
  - destruct (Ascii.eqb c "v") eqn:E; simpl.
    + apply Ascii.eqb_eq in E as ->. split; [|exact Hs].
      exists (S n). simpl. now rewrite <- Hn.
    + split; [now exists 0|]. simpl. rewrite Ascii.eqb_sym, E. reflexivity.
Qed.

(** C8, as the specification states it, fails for a tag with two leading
    [v]: [lstrip] removes both. *)
Lemma version_strips_every_leading_v :
  version {["GIT_DESCRIBE_TAG" := "vv0.8.0"]} = "0.8.0" /\
  version {["GIT_DESCRIBE_TAG" := "vv0.8.0"]} <> strip_leading_v "vv0.8.0".
Proof. split; [reflexivity | discriminate]. Qed.

(** C8 (amended): the release version is the version tag with all its
    leading [v] characters removed: the tag is a run of [v] followed by the
    version, and the version does not start with [v]. It is the tag with one
    leading [v] removed exactly when the tag does not start with two. *)
Theorem version_lstrip (env : gmap string string) (t : string) :
  env !! "GIT_DESCRIBE_TAG" = Some t ->
  (exists n, t = repeat_char "v" n +:+ version env) /\
  Py.startswith "v" (version env) = false /\
  (Py.startswith "vv" t = false -> version env = strip_leading_v t).
Proof.
  intros H. unfold version, environ_get. rewrite H. simpl.
  destruct (lstrip_v_spec t) as [Hn Hs]. repeat split; [exact Hn | exact Hs |].
  intros Hvv. destruct t as [|c t]; [reflexivity|]. simpl in *.
  rewrite (Ascii.eqb_sym c). destruct (Ascii.eqb "v" c); [|reflexivity].
  now apply lstrip_v_id.
Qed.

(** The tag [v0.8.0] gives the version [0.8.0]. *)
Lemma version_lstrip_witness :
  (exists n, "v0.8.0" = repeat_char "v" n +:+ version {["GIT_DESCRIBE_TAG" := "v0.8.0"]}) /\
  Py.startswith "v" (version {["GIT_DESCRIBE_TAG" := "v0.8.0"]}) = false /\
  (Py.startswith "vv" "v0.8.0" = false ->
   version {["GIT_DESCRIBE_TAG" := "v0.8.0"]} = strip_leading_v "v0.8.0").
Proof.
  exact (version_lstrip {["GIT_DESCRIBE_TAG" := "v0.8.0"]} "v0.8.0" eq_refl).
Defined.

(** ** The orchestrator *)

Lemma split_nonempty sep s : exists t ts, Py.split sep s = t :: ts.
Proof.
  induction s as [|c s (t & ts & IH)]; simpl; [now eauto|].
  destruct (Ascii.eqb c sep); [now eauto|]. rewrite IH. now eauto.
Qed.

Lemma isspace_space : Py.isspace " " = true.
Proof. reflexivity. Qed.

Lemma split_ws_go_spaces s : forall cur,
  only_spaces s = true ->
  Py.split_ws_go cur s = List.filter Py.truthy (prepend cur (Py.split " " s)).
Proof.
  induction s as [|c s IH]; intros cur H; simpl in *.
  - rewrite app_empty_r. reflexivity.
  - apply andb_true_iff in H as [Hc Hs].
    destruct (Ascii.eqb c " ") eqn:E.
    + apply Ascii.eqb_eq in E as ->. rewrite isspace_space. simpl.
      rewrite app_empty_r. rewrite (IH "" Hs).
      destruct (split_nonempty " " s) as (t & ts & ->). simpl.
      destruct (Py.truthy cur); reflexivity.
    + rewrite orb_false_r in Hc. apply negb_true_iff in Hc. rewrite Hc.
      rewrite (IH _ Hs).
      destruct (split_nonempty " " s) as (t & ts & ->). simpl.
      now rewrite app_assoc_str.
Qed.

Lemma split_ws_spaces s :
  only_spaces s = true ->
  Py.split_ws s = List.filter Py.truthy (Py.split " " s).
Proof.
  intros H. unfold Py.split_ws. rewrite (split_ws_go_spaces s "" H).
  destruct (split_nonempty " " s) as (t & ts & ->). reflexivity.
Qed.

Lemma build_native_cases abspath exe self ext w :
  let w1 := before_configure self w in
  let args := cmake_args abspath exe self ext (environ w) in
  let mk := ["make"; "-j"; CMakeExtension.name ext] in
  let w2 := emit (ESpawn args (build_temp self) (environ w)) w1 in
  let w3 := emit (ESpawn mk (build_temp self) (environ w)) w2 in
  build_extension abspath exe self (Native ext) w =
    if Z.eqb (configure_status abspath exe self ext w) 0 then
      if Z.eqb (make_status abspath exe self ext w) 0 then Ok tt (emit (EPrint "") w3)
      else Raise (CalledProcessError (make_status abspath exe self ext w) mk) w3
    else Raise (CalledProcessError (configure_status abspath exe self ext w) args) w2.
Proof.
  unfold build_extension, configure_status, make_status, before_configure.
  run_m. simpl.
  destruct (bool_decide _ || bool_decide _); simpl.
  - destruct (Z.eqb _ 0); [|reflexivity]. simpl. destruct (Z.eqb _ 0); reflexivity.
  - destruct (Z.eqb _ 0); [|reflexivity]. simpl. destruct (Z.eqb _ 0); reflexivity.
Qed.

Lemma log_before_configure self w :
  exists mk, log (before_configure self w) = log w ++ mk /\
             spawned mk = [] /\ std_built mk = [].
Proof.
  unfold before_configure. destruct (_ || _).
  - exists []. now rewrite app_nil_r.
  - now exists [EMakeDirs (build_temp self)].
Qed.

Lemma spawned_app l1 l2 : spawned (l1 ++ l2) = spawned l1 ++ spawned l2.
Proof.
  induction l1 as [|e l1 IH]; [reflexivity|].
  destruct e; simpl; now rewrite ?IH.
Qed.

Lemma std_built_app l1 l2 : std_built (l1 ++ l2) = std_built l1 ++ std_built l2.
Proof.
  induction l1 as [|e l1 IH]; [reflexivity|].
  destruct e; simpl; now rewrite ?IH.
Qed.

Lemma trace_since_app {A} w (r : result A) evs :
  log (final_world r) = log w ++ evs -> trace_since w r = evs.
Proof. intros H. unfold trace_since. rewrite H. apply drop_app_length. Qed.

(** The trace of one native build: the configure step always runs, with the
    arguments of [cmake_args]. *)
Lemma build_native_trace abspath exe self ext w :
  exists mk tl,
    log (final_world (build_extension abspath exe self (Native ext) w))
      = log w ++ mk ++
        ESpawn (cmake_args abspath exe self ext (environ w)) (build_temp self)
               (environ w) :: tl /\
    spawned mk = [] /\ std_built mk = [] /\ std_built tl = [] /\
    (spawned tl = [] \/ spawned tl = [["make"; "-j"; CMakeExtension.name ext]]).
Proof.
  rewrite build_native_cases. cbv zeta.
  destruct (log_before_configure self w) as (mk & Hmk & Hs & Hb).
  exists mk.
  destruct (Z.eqb (configure_status _ _ _ _ _) 0).
  - destruct (Z.eqb (make_status _ _ _ _ _) 0); simpl; rewrite Hmk.
    + exists [ESpawn ["make"; "-j"; CMakeExtension.name ext] (build_temp self) (environ w);
              EPrint ""].
      rewrite <- !app_assoc. simpl. repeat split; auto.
    + exists [ESpawn ["make"; "-j"; CMakeExtension.name ext] (build_temp self) (environ w)].
      rewrite <- !app_assoc. simpl. repeat split; auto.
  - exists []. simpl. rewrite Hmk, <- !app_assoc. simpl. repeat split; auto.
Qed.

(** C5, as the specification states it, fails when the extra arguments are
    separated by a tab: the code cuts on the space character only. *)
Lemma cmake_args_tab_not_split :
  let env : gmap string string :=
    {["CMAKE_COMMON_VARIABLES" := "-DA=1" +:+ String "009" "-DB=2"]} in
  let self := BuildExt false "build/temp" (fun name => "build/lib/" +:+ name) in
  let ext := CMakeExtension.Make "rmm" "/src/cpp" in
  cmake_args (fun p => p) "cmake" self ext env
    = ["cmake"; "/src/cpp"; "-DCMAKE_LIBRARY_OUTPUT_DIRECTORY=build/lib";
       "-DCMAKE_BUILD_TYPE=Release"; "-DA=1" +:+ String "009" "-DB=2"] /\
  generator_arguments_spec (fun p => p) "cmake" self ext env
    = ["cmake"; "/src/cpp"; "-DCMAKE_LIBRARY_OUTPUT_DIRECTORY=build/lib";
       "-DCMAKE_BUILD_TYPE=Release"; "-DA=1"; "-DB=2"] /\
  cmake_args (fun p => p) "cmake" self ext env
    <> generator_arguments_spec (fun p => p) "cmake" self ext env.
Proof. repeat split. discriminate. Qed.

(** C5 (amended): for every native descriptor, the configure step of
    [build_extension] is started with the four arguments [CMAKE_EXE], the
    source directory, [-DCMAKE_LIBRARY_OUTPUT_DIRECTORY=] followed by the
    output directory and [-DCMAKE_BUILD_TYPE=] followed by [Debug] when the
    debug flag is set and by [Release] otherwise, followed by the fields that
    the value of [CMAKE_COMMON_VARIABLES] has between space characters, the
    empty ones left out. These are the white-space tokens of the value when
    the space is its only white space. *)
Theorem build_extension_generator_arguments abspath exe self ext w :
  let value := environ_get (environ w) "CMAKE_COMMON_VARIABLES" "" in
  let args :=
    [exe;
     CMakeExtension.sourcedir ext;
     "-DCMAKE_LIBRARY_OUTPUT_DIRECTORY=" +:+
       abspath (posixpath.dirname (get_ext_fullpath self (CMakeExtension.name ext)));
     "-DCMAKE_BUILD_TYPE=" +:+ (if debug self then "Debug" else "Release")]
    ++ List.filter Py.truthy (Py.split " " value) in
  (exists rest,
     spawned (trace_since w (build_extension abspath exe self (Native ext) w))
       = args :: rest) /\
  (only_spaces value = true ->
   args = generator_arguments_spec abspath exe self ext (environ w)).
Proof.
  cbv zeta. split.
  - destruct (build_native_trace abspath exe self ext w)
      as (mk & tl & Hlog & Hmk & _ & _ & _).
    exists (spawned tl).
    rewrite (trace_since_app _ _ _ Hlog), spawned_app, Hmk. reflexivity.
  - intros H. unfold generator_arguments_spec. now rewrite split_ws_spaces.
Qed.

(** C9, as the specification states it, fails for two commands that have
    the same debug flag and place the module of the descriptor in different
    directories: the third argument differs. *)
Lemma output_directory_changes_arguments :
  let self1 := BuildExt true "tmp" (fun n => "build/lib.a/" +:+ n) in
  let self2 := BuildExt true "tmp" (fun n => "build/lib.b/" +:+ n) in
  let ext := CMakeExtension.Make "rmm" "/cpp" in
  take 4 (configure_argv (fun p => p) "cmake" self1 ext (fresh_world ∅ ∅ 0))
    = ["cmake"; "/cpp"; "-DCMAKE_LIBRARY_OUTPUT_DIRECTORY=build/lib.a";
       "-DCMAKE_BUILD_TYPE=Debug"] /\
  take 4 (configure_argv (fun p => p) "cmake" self2 ext (fresh_world ∅ ∅ 0))
    = ["cmake"; "/cpp"; "-DCMAKE_LIBRARY_OUTPUT_DIRECTORY=build/lib.b";
       "-DCMAKE_BUILD_TYPE=Debug"] /\
  ~ same_first_arguments (fun p => p) "cmake" self1 self2 ext
      (fresh_world ∅ ∅ 0) (fresh_world ∅ ∅ 0).
Proof.
  cbv zeta. split; [reflexivity|]. split; [reflexivity|].
  intros H. specialize (H eq_refl). vm_compute in H. discriminate H.
Qed.

(** C9 (amended): two calls of [build_extension] for the same descriptor,
    with the same generator executable, by commands that have the same debug
    flag and the same output directory for the descriptor, made in any two
    worlds, start their configure steps with argument lists that have the
    same first four elements, whatever the other fields of the commands and
    the rest of the environment are; what follows the fourth is read from
    [CMAKE_COMMON_VARIABLES], and the two lists are equal when that variable
    has the same value in both environments. *)
Theorem generator_arguments_agree abspath1 abspath2 exe1 exe2 self1 self2 ext w1 w2 :
  exe1 = exe2 ->
  debug self1 = debug self2 ->
  output_dir abspath1 self1 ext = output_dir abspath2 self2 ext ->
  exists a1 r1 a2 r2,
    spawned (trace_since w1 (build_extension abspath1 exe1 self1 (Native ext) w1))
      = a1 :: r1 /\
    spawned (trace_since w2 (build_extension abspath2 exe2 self2 (Native ext) w2))
      = a2 :: r2 /\
    take 4 a1 = take 4 a2 /\
    drop 4 a1 = common_variables (environ w1) /\
    drop 4 a2 = common_variables (environ w2) /\
    (environ w1 !! "CMAKE_COMMON_VARIABLES" = environ w2 !! "CMAKE_COMMON_VARIABLES" ->
     a1 = a2).
Proof.
  intros <- Hd Ho.
  destruct (build_native_trace abspath1 exe1 self1 ext w1)
    as (mk1 & tl1 & Hlog1 & Hmk1 & _).
  destruct (build_native_trace abspath2 exe1 self2 ext w2)
    as (mk2 & tl2 & Hlog2 & Hmk2 & _).
  exists (cmake_args abspath1 exe1 self1 ext (environ w1)), (spawned tl1),
         (cmake_args abspath2 exe1 self2 ext (environ w2)), (spawned tl2).
  rewrite (trace_since_app _ _ _ Hlog1), (trace_since_app _ _ _ Hlog2).
  rewrite !spawned_app, Hmk1, Hmk2.
  assert (Hfour : take 4 (cmake_args abspath1 exe1 self1 ext (environ w1))
                  = take 4 (cmake_args abspath2 exe1 self2 ext (environ w2))).
  { unfold cmake_args, build_type. simpl. now rewrite Ho, Hd. }
  repeat split; [exact Hfour|].
  intros H. unfold cmake_args, build_type, common_variables, environ_get.
  now rewrite H, Ho, Hd.
Qed.

(** Two commands that share the debug flag and the output directory for
    [rmm] but not the build directory, in two environments. *)
Lemma generator_arguments_agree_witness :
  exists a1 r1 a2 r2,
    spawned (trace_since (fresh_world ∅ ∅ 0)
               (build_extension (fun p => p) "cmake"
                  (BuildExt true "tmp1" (fun n => "lib/" +:+ n))
                  (Native (CMakeExtension.Make "rmm" "/cpp")) (fresh_world ∅ ∅ 0)))
      = a1 :: r1 /\
    spawned (trace_since (fresh_world {["CMAKE_COMMON_VARIABLES" := "-DX=1"]} ∅ 1)
               (build_extension (fun p => p) "cmake"
                  (BuildExt true "tmp2" (fun n => "lib/" +:+ n))
                  (Native (CMakeExtension.Make "rmm" "/cpp"))
                  (fresh_world {["CMAKE_COMMON_VARIABLES" := "-DX=1"]} ∅ 1)))
      = a2 :: r2 /\
    take 4 a1 = take 4 a2 /\
    drop 4 a1 = common_variables (environ (fresh_world ∅ ∅ 0)) /\
    drop 4 a2 = common_variables
                  (environ (fresh_world {["CMAKE_COMMON_VARIABLES" := "-DX=1"]} ∅ 1)) /\
    (environ (fresh_world ∅ ∅ 0) !! "CMAKE_COMMON_VARIABLES"
       = environ (fresh_world {["CMAKE_COMMON_VARIABLES" := "-DX=1"]} ∅ 1)
           !! "CMAKE_COMMON_VARIABLES" ->
     a1 = a2).
Proof.
  apply (generator_arguments_agree (fun p => p) (fun p => p) "cmake" "cmake"
           (BuildExt true "tmp1" (fun n => "lib/" +:+ n))
           (BuildExt true "tmp2" (fun n => "lib/" +:+ n))
           (CMakeExtension.Make "rmm" "/cpp")
           (fresh_world ∅ ∅ 0)
           (fresh_world {["CMAKE_COMMON_VARIABLES" := "-DX=1"]} ∅ 1)).
  - reflexivity.
  - reflexivity.
  - reflexivity.
Defined.

(** C3: when [CMAKE_EXE] is unset or empty and the search path has no
    [cmake], the script ends with [sys.exit(1)] after printing the message;
    nothing else has happened: no child process was started, no descriptor
    was built and no directory was touched. *)
Theorem missing_cmake_aborts abspath python_lib platform version_info cythonize
    which commands w :
  (environ w !! "CMAKE_EXE" = None \/ environ w !! "CMAKE_EXE" = Some "") ->
  which = None ->
  let r := setup_py abspath python_lib platform version_info cythonize which
             commands w in
  (exists w', r = Raise (SystemExit 1) w') /\
  trace_since w r = [EPrint missing_cmake_message] /\
  spawned (trace_since w r) = [] /\
  std_built (trace_since w r) = [].
Proof.
  intros Henv ->. cbv zeta.
  assert (Hex : falsy (resolve_cmake_exe
            (<["CUDF_INCLUDE_DIR" := "cpp/include/cudf"]>
               (<["RMM_HEADER" := "cpp/thirdparty/rmm/include/rmm/rmm_api.h"]>
                  (environ w))) None) = true).
  { unfold resolve_cmake_exe.
    rewrite lookup_insert_ne by discriminate.
    rewrite lookup_insert_ne by discriminate.
    destruct Henv as [-> | ->]; reflexivity. }
  unfold setup_py. run_m. unfold set_environ at 1 2. simpl. unfold set_environ.
  simpl. rewrite Hex. simpl.
  repeat split; [eexists; reflexivity | | |];
    unfold trace_since; simpl; now rewrite drop_app_length.
Qed.

(** An empty environment and no [cmake] on the search path. *)
Lemma missing_cmake_aborts_witness :
  let r := setup_py (fun p => p) "/usr/lib/python3.7/site-packages" "linux-x86_64"
             (3, 7) (fun l => l) None
             [build_ext_command (BuildExt false "build/temp" (fun n => "build/lib/" +:+ n))]
             (fresh_world ∅ ∅ 0) in
  (exists w', r = Raise (SystemExit 1) w') /\
  trace_since (fresh_world ∅ ∅ 0) r = [EPrint missing_cmake_message] /\
  spawned (trace_since (fresh_world ∅ ∅ 0) r) = [] /\
  std_built (trace_since (fresh_world ∅ ∅ 0) r) = [].
Proof.
  apply (missing_cmake_aborts (fun p => p) "/usr/lib/python3.7/site-packages"
           "linux-x86_64" (3, 7) (fun l => l) None
           [build_ext_command (BuildExt false "build/temp" (fun n => "build/lib/" +:+ n))]
           (fresh_world ∅ ∅ 0)).
  - left. reflexivity.
  - reflexivity.
Defined.

Lemma build_extensions_serial_app abspath exe self pre post w :
  build_extensions_serial abspath exe self (pre ++ post) w =
    match build_extensions_serial abspath exe self pre w with
    | Ok _ w1 => build_extensions_serial abspath exe self post w1
    | Raise e w' => Raise e w'
    end.
Proof.
  revert w. induction pre as [|ext pre IH]; intros w; [reflexivity|].
  simpl. unfold bind.
  destruct (build_extension abspath exe self ext w) as [[] w1|e w1];
    [apply IH | reflexivity].
Qed.

Lemma build_extensions_is_serial abspath exe self exts :
  parallel self = 0 ->
  build_extensions abspath exe self exts = build_extensions_serial abspath exe self exts.
Proof. intros H. unfold build_extensions. now rewrite H. Qed.

(** A native build raises exactly when its configure step or its build step
    returns a non-zero status; the exception carries the status and the
    command line of the step that failed, and nothing follows that step. *)
Lemma build_native_fails abspath exe self ext w :
  let cs := configure_status abspath exe self ext w in
  let ms := make_status abspath exe self ext w in
  let cfg := cmake_args abspath exe self ext (environ w) in
  let mk := ["make"; "-j"; CMakeExtension.name ext] in
  cs <> 0%Z \/ ms <> 0%Z ->
  exists w' evs,
    build_extension abspath exe self (Native ext) w
      = Raise (CalledProcessError (if Z.eqb cs 0 then ms else cs)
                                  (if Z.eqb cs 0 then mk else cfg)) w' /\
    log w' = log w ++ evs /\
    std_built evs = [] /\
    spawned evs = cfg :: (if Z.eqb cs 0 then [mk] else []).
Proof.
  cbv zeta. intros H. rewrite build_native_cases. cbv zeta.
  destruct (log_before_configure self w) as (mk & Hmk & Hs & Hb).
  destruct (Z.eqb_spec (configure_status abspath exe self ext w) 0) as [E|E].
  - destruct H as [H|H]; [contradiction|].
    destruct (Z.eqb_spec (make_status abspath exe self ext w) 0) as [E'|E'];
      [contradiction|].
    eexists _, (mk ++ [_; _]). split; [reflexivity|].
    simpl. rewrite Hmk, <- !app_assoc. simpl. split; [reflexivity|].
    rewrite std_built_app, spawned_app, Hs, Hb. simpl. auto.
  - eexists _, (mk ++ [_]). split; [reflexivity|].
    simpl. rewrite Hmk, <- !app_assoc. simpl. split; [reflexivity|].
    rewrite std_built_app, spawned_app, Hs, Hb. simpl. auto.
Qed.

(** C2, as the specification states it, fails when the command runs with
    [--parallel]: the builds of all the descriptors are submitted before any
    result is read, so the configure step of [cudf] is started although the
    one of [rmm] has failed. *)
Lemma parallel_run_builds_later_descriptors :
  let self := MakeBuildExt false "build/temp" (fun n => "build/lib/" +:+ n) 1 in
  let rmm := CMakeExtension.Make "rmm" "/cpp" in
  let cudf := CMakeExtension.Make "cudf" "/cpp" in
  let w := fresh_world ∅ ∅ 2 in
  spawned (trace_since w
             (build_extensions (fun p => p) "cmake" self [Native rmm; Native cudf] w))
    = [cmake_args (fun p => p) "cmake" self rmm ∅;
       cmake_args (fun p => p) "cmake" self cudf ∅] /\
  ~ failure_ends_run (fun p => p) "cmake" self [] rmm [Native cudf] w.
Proof.
  cbv zeta. split; [reflexivity|]. intros H.
  destruct H as [H _]; [eexists _, _, _; reflexivity|].
  vm_compute in H. discriminate H.
Qed.

(** C2 (amended): when the command runs without [--parallel], the
    descriptors before a native descriptor have been built, and the
    configure step or the build step of that descriptor returns a non-zero
    status, the run over the whole list raises [CalledProcessError] with the
    status and the command line of the step that failed: the configure step
    when its status is not zero, the build step otherwise. That step was
    started once and the trace ends with it: after the configure step comes
    the build step of the same descriptor only when the configure step
    returned zero, and nothing of the descriptors that follow, native or
    standard. The outcome is the one of the run without them. *)
Theorem native_failure_aborts_serial_run abspath exe self pre ext post w0 w1 :
  parallel self = 0 ->
  build_extensions abspath exe self pre w0 = Ok tt w1 ->
  let cs := configure_status abspath exe self ext w1 in
  let ms := make_status abspath exe self ext w1 in
  let cfg := cmake_args abspath exe self ext (environ w1) in
  let mk := ["make"; "-j"; CMakeExtension.name ext] in
  cs <> 0%Z \/ ms <> 0%Z ->
  exists w' evs,
    build_extensions abspath exe self (pre ++ Native ext :: post) w0
      = Raise (CalledProcessError (if Z.eqb cs 0 then ms else cs)
                                  (if Z.eqb cs 0 then mk else cfg)) w' /\
    build_extensions abspath exe self (pre ++ [Native ext]) w0
      = Raise (CalledProcessError (if Z.eqb cs 0 then ms else cs)
                                  (if Z.eqb cs 0 then mk else cfg)) w' /\
    log w' = log w1 ++ evs /\
    std_built evs = [] /\
    spawned evs = cfg :: (if Z.eqb cs 0 then [mk] else []).
Proof.
  intros Hser Hpre cs ms cfg mk Hst.
  destruct (build_native_fails abspath exe self ext w1 Hst)
    as (w' & evs & Hr & Hlog & Hb & Hs).
  exists w', evs.
  rewrite !build_extensions_is_serial in * by exact Hser.
  rewrite !build_extensions_serial_app, Hpre. cbn [build_extensions_serial].
  unfold bind. rewrite Hr. repeat split; assumption.
Qed.

(** The configure step of [rmm] fails: [cudf] is not built. *)
Lemma native_failure_aborts_serial_run_witness :
  let self := BuildExt false "build/temp" (fun n => "build/lib/" +:+ n) in
  let ext := CMakeExtension.Make "rmm" "/cpp" in
  let post := [Native (CMakeExtension.Make "cudf" "/cpp")] in
  let w := fresh_world ∅ ∅ 2 in
  let cs := configure_status (fun p => p) "cmake" self ext w in
  let ms := make_status (fun p => p) "cmake" self ext w in
  let cfg := cmake_args (fun p => p) "cmake" self ext (environ w) in
  let mk := ["make"; "-j"; CMakeExtension.name ext] in
  exists w' evs,
    build_extensions (fun p => p) "cmake" self ([] ++ Native ext :: post) w
      = Raise (CalledProcessError (if Z.eqb cs 0 then ms else cs)
                                  (if Z.eqb cs 0 then mk else cfg)) w' /\
    build_extensions (fun p => p) "cmake" self ([] ++ [Native ext]) w
      = Raise (CalledProcessError (if Z.eqb cs 0 then ms else cs)
                                  (if Z.eqb cs 0 then mk else cfg)) w' /\
    log w' = log w ++ evs /\
    std_built evs = [] /\
    spawned evs = cfg :: (if Z.eqb cs 0 then [mk] else []).
Proof.
  apply (native_failure_aborts_serial_run (fun p => p) "cmake"
           (BuildExt false "build/temp" (fun n => "build/lib/" +:+ n))
           [] (CMakeExtension.Make "rmm" "/cpp")
           [Native (CMakeExtension.Make "cudf" "/cpp")]
           (fresh_world ∅ ∅ 2) (fresh_world ∅ ∅ 2)).
  - reflexivity.
  - reflexivity.
  - left. vm_compute. discriminate.
Defined.

(** ** The header installer *)

(** C7: with an empty list of header roots, [run] returns at once: the
    world is the one it started in (no directory made, no file copied, no
    event in the trace), no record is added, and the command completes
    without an exception. *)
Theorem run_without_headers self w :
  run self [] w = (self, w) /\
  log (run self [] w).2 = log w /\
  files (run self [] w).2 = files w /\
  dirs (run self [] w).2 = dirs w /\
  outfiles (run self [] w).1 = outfiles self /\
  forall abspath exe exts,
    setup abspath exe exts [] [install_headers_command self] w = Ok tt w.
Proof. repeat split. Qed.

(** *** What a copy changes *)

Lemma do_install_spec st i :
  install_dir (do_install st i).1 = install_dir st.1 /\
  force (do_install st i).1 = force st.1 /\
  outfiles (do_install st i).1 = outfiles st.1 ++ [install_dst i] /\
  trees (do_install st i).2 = trees st.2 /\
  environ (do_install st i).2 = environ st.2 /\
  source_mtime (do_install st i).2 = source_mtime st.2 /\
  log (do_install st i).2 = log st.2 ++ install_events i /\
  dirs (do_install st i).2 = {[posixpath.dirname (install_dst i)]} ∪ dirs st.2 /\
  files (do_install st i).2
    = (if install_copies st i then <[install_dst i := i.2]> (files st.2)
       else files st.2) /\
  mtime (do_install st i).2
    = (if install_copies st i
       then fun q => if String.eqb q (install_dst i)
                     then source_mtime st.2 i.1.1 else mtime st.2 q
       else mtime st.2).
Proof.
  unfold do_install, copy_file, install_copies.
  change (copies st.1 i.1.1 (install_dst i)
            (mkpath (posixpath.dirname (install_dst i)) st.2))
    with (copies st.1 i.1.1 (install_dst i) st.2).
  destruct (copies st.1 i.1.1 (install_dst i) st.2); simpl;
    rewrite <- ?app_assoc; repeat split.
Qed.

Lemma foldl_do_install_inv l : forall st,
  install_dir (foldl do_install st l).1 = install_dir st.1 /\
  trees (foldl do_install st l).2 = trees st.2.
Proof.
  induction l as [|i l IH]; intros st; [now split|].
  cbn [foldl]. destruct (IH (do_install st i)) as [-> ->].
  now destruct (do_install_spec st i) as (-> & _ & _ & -> & _).
Qed.

Lemma foldl_do_install_force l : forall st,
  force (foldl do_install st l).1 = force st.1 /\
  source_mtime (foldl do_install st l).2 = source_mtime st.2.
Proof.
  induction l as [|i l IH]; intros st; [now split|].
  cbn [foldl]. destruct (IH (do_install st i)) as [-> ->].
  now destruct (do_install_spec st i) as (_ & -> & _ & _ & _ & -> & _).
Qed.

Lemma foldl_do_install_outfiles l : forall st,
  outfiles (foldl do_install st l).1 = outfiles st.1 ++ map install_dst l.
Proof.
  induction l as [|i l IH]; intros st; cbn [foldl map]; [now rewrite app_nil_r|].
  rewrite IH. destruct (do_install_spec st i) as (_ & _ & -> & _).
  now rewrite <- app_assoc.
Qed.

Lemma foldl_do_install_log l : forall st,
  log (foldl do_install st l).2 = log st.2 ++ flat_map install_events l.
Proof.
  induction l as [|i l IH]; intros st; cbn [foldl flat_map]; [now rewrite app_nil_r|].
  rewrite IH. destruct (do_install_spec st i) as (_ & _ & _ & _ & _ & _ & -> & _).
  now rewrite <- !app_assoc.
Qed.

Lemma do_install_files st i t :
  files (do_install st i).2 !! t =
    if decide (install_dst i = t)
    then (if install_copies st i then Some i.2 else files st.2 !! t)
    else files st.2 !! t.
Proof.
  destruct (do_install_spec st i) as (_ & _ & _ & _ & _ & _ & _ & _ & -> & _).
  destruct (decide (install_dst i = t)) as [->|Hne];
    destruct (install_copies st i); try reflexivity.
  - apply lookup_insert_eq.
  - now apply lookup_insert_ne.
Qed.

(** A copy that does not write found its destination in place. *)
Lemma install_skips_present st i :
  install_copies st i = false ->
  force st.1 = false /\ is_Some (files st.2 !! install_dst i) /\
  (source_mtime st.2 i.1.1 <= mtime st.2 (install_dst i))%Z.
Proof.
  unfold install_copies, copies, newer. intros H.
  apply orb_false_iff in H as [Hf H]. split; [exact Hf|].
  destruct (files st.2 !! install_dst i); [|discriminate].
  split; [eauto|]. now apply Z.ltb_ge.
Qed.

(** A destination that no copy of [l] writes keeps its content. *)
Lemma foldl_do_install_other l t : forall st,
  ~ In t (map install_dst l) ->
  files (foldl do_install st l).2 !! t = files st.2 !! t.
Proof.
  induction l as [|i l IH]; intros st Hn; [reflexivity|].
  cbn [foldl]. rewrite IH by (intros H; apply Hn; now right).
  rewrite do_install_files.
  destruct (decide (install_dst i = t)) as [E|E]; [|reflexivity].
  destruct Hn. now left.
Qed.



(** *** The loops of [run] make the copies of [installs] *)

Lemma install_file_eq header dirpath st f :
  install_file header dirpath st f =
    foldl do_install st (file_installs (install_dir st.1) header dirpath [f]).
Proof.
  destruct st as [self w], f as [file data].
  unfold install_file, file_installs. simpl.
  destruct (Py.endswith ".h" file); [|reflexivity].
  unfold do_install, copy_file, install_dst. simpl.
  match goal with |- context [if ?c then _ else _] => destruct c end; reflexivity.
Qed.

Lemma file_installs_cons dir header dirpath f names :
  file_installs dir header dirpath (f :: names) =
    file_installs dir header dirpath [f] ++ file_installs dir header dirpath names.
Proof. unfold file_installs. simpl. now rewrite app_nil_r. Qed.

Lemma install_files_eq header dirpath names : forall st,
  foldl (install_file header dirpath) st names =
    foldl do_install st (file_installs (install_dir st.1) header dirpath names).
Proof.
  induction names as [|f names IH]; intros st; [reflexivity|].
  rewrite file_installs_cons, foldl_app. simpl foldl at 1.
  rewrite IH, install_file_eq.
  now destruct (foldl_do_install_inv
                  (file_installs (install_dir st.1) header dirpath [f]) st) as [-> _].
Qed.

Lemma install_dirpaths_eq header ts : forall st,
  foldl (install_dirpath header) st ts =
    foldl do_install st
      (flat_map (fun t : string * list string * list (string * string) =>
                   file_installs (install_dir st.1) header t.1.1 t.2) ts).
Proof.
  induction ts as [|[[dirpath dns] names] ts IH]; intros st; [reflexivity|].
  simpl. rewrite foldl_app, IH, install_files_eq.
  now destruct (foldl_do_install_inv
                  (file_installs (install_dir st.1) header dirpath names) st) as [-> _].
Qed.

Lemma os_walk_trees w w' top : trees w = trees w' -> os_walk w top = os_walk w' top.
Proof. intros H. unfold os_walk. now rewrite H. Qed.

Lemma header_installs_trees dir w w' header :
  trees w = trees w' -> header_installs dir w header = header_installs dir w' header.
Proof. intros H. unfold header_installs. now rewrite (os_walk_trees w w' header H). Qed.

Lemma install_headers_eq headers : forall st,
  foldl install_header st headers =
    foldl do_install st (installs (install_dir st.1) st.2 headers).
Proof.
  induction headers as [|h headers IH]; intros st; [reflexivity|].
  unfold installs. simpl. rewrite foldl_app.
  assert (E : install_header st h
              = foldl do_install st (header_installs (install_dir st.1) st.2 h)).
  { unfold install_header, header_installs. apply install_dirpaths_eq. }
  rewrite E, IH.
  destruct (foldl_do_install_inv (header_installs (install_dir st.1) st.2 h) st)
    as [Hd Ht].
  rewrite Hd. unfold installs. f_equal. apply flat_map_ext. intros h'.
  now apply header_installs_trees.
Qed.

(** [run] is the sequence of the copies of [installs], after the install
    directory has been made. *)
Lemma run_eq self h headers w :
  run self (h :: headers) w =
    foldl do_install (self, mkpath (install_dir self) w)
      (installs (install_dir self) w (h :: headers)).
Proof.
  unfold run. rewrite install_headers_eq. reflexivity.
Qed.

(** *** The files [os.walk] reaches *)

Lemma filenames_In f data entries :
  In (f, File data) entries -> In (f, data) (filenames entries).
Proof.
  induction entries as [|[name n] entries IH]; intros H; [destruct H|].
  destruct H as [E|H].
  - injection E as -> ->. now left.
  - destruct n; simpl; [right|]; now apply IH.
Qed.

Lemma walk_subdir top n ds dirpath entries :
  subdir top n ds dirpath entries ->
  In (dirpath, dirnames entries, filenames entries) (walk top n).
Proof.
  induction 1 as [top entries | top entries0 name child ds dirpath entries Hin _ IH].
  - now left.
  - simpl. right. apply in_flat_map. now exists (name, child).
Qed.

Lemma header_installs_In dir w h root ds dirpath entries f data :
  trees w !! h = Some root ->
  subdir h root ds dirpath entries ->
  In (f, File data) entries ->
  Py.endswith ".h" f = true ->
  In (posixpath.join dirpath f,
      posixpath.join dir (Py.replace h "" (posixpath.join dirpath f)), data)
     (header_installs dir w h).
Proof.
  intros Ht Hsub Hin Hsuf. unfold header_installs, os_walk. rewrite Ht.
  apply in_flat_map. exists (dirpath, dirnames entries, filenames entries).
  split; [now apply (walk_subdir h root ds)|].
  unfold file_installs. apply in_flat_map. exists (f, data).
  split; [now apply filenames_In|]. simpl. rewrite Hsuf. now left.
Qed.

Lemma installs_In dir w headers h i :
  In h headers -> In i (header_installs dir w h) -> In i (installs dir w headers).
Proof. intros Hh Hi. unfold installs. apply in_flat_map. now exists h. Qed.

(** Every copy has a source whose name ends in [.h]. *)
Lemma installs_suffix dir w headers p t d :
  In (p, t, d) (installs dir w headers) -> Py.endswith ".h" p = true.
Proof.
  unfold installs, header_installs, file_installs. intros H.
  apply in_flat_map in H as (h & _ & H).
  apply in_flat_map in H as ([[dirpath dns] names] & _ & H).
  apply in_flat_map in H as ([f data] & _ & H). simpl in H.
  destruct (Py.endswith ".h" f) eqn:E; [|destruct H].
  destruct H as [[= <- _ _]|[]]. now apply endswith_join.
Qed.

(** *** Paths below a root *)

Lemma subdir_dirpath top n ds dirpath entries :
  subdir top n ds dirpath entries -> dirpath = foldl posixpath.join top ds.
Proof. induction 1; [reflexivity | assumption]. Qed.

Lemma valid_name_not_abs d : valid_name d -> Py.startswith "/" d = false.
Proof.
  intros [_ H]. destruct d as [|a d]; [reflexivity|]. simpl in *.
  apply orb_false_iff in H as [H _]. now rewrite H.
Qed.

Lemma endswith_slash_no_sep d : Py.mem "/" d = false -> Py.endswith "/" d = false.
Proof.
  induction d as [|a d IH]; intros H; [reflexivity|].
  simpl in H. apply orb_false_iff in H as [Ha Hd].
  cbn [Py.endswith]. rewrite (IH Hd), orb_false_r.
  apply String.eqb_neq. intros [= -> ->]. discriminate.
Qed.

Lemma endswith_slash_app x d :
  Py.truthy d = true -> Py.endswith "/" (x +:+ d) = Py.endswith "/" d.
Proof.
  intros H. induction x as [|a x IH]; [reflexivity|].
  simpl. cbn [Py.endswith]. rewrite IH.
  replace (String.eqb (String a (x +:+ d)) "/") with false; [reflexivity|].
  symmetry. apply String.eqb_neq. intros [= _ E].
  destruct x; destruct d; discriminate.
Qed.

Lemma truthy_app_r x d : Py.truthy d = true -> Py.truthy (x +:+ d) = true.
Proof. destruct x; [trivial | reflexivity]. Qed.

Lemma join_valid top d :
  Py.truthy top = true -> valid_name d ->
  posixpath.join top d
    = (if Py.endswith "/" top then top else top +:+ "/") +:+ d.
Proof.
  intros Ht Hd. unfold posixpath.join.
  rewrite (valid_name_not_abs d Hd), Ht. simpl.
  destruct (Py.endswith "/" top); [reflexivity | now rewrite app_assoc_str].
Qed.

Lemma join_names ds : forall top,
  Py.truthy top = true -> Forall valid_name ds -> ds <> [] ->
  foldl posixpath.join top ds
    = (if Py.endswith "/" top then top else top +:+ "/") +:+ String.concat "/" ds.
Proof.
  induction ds as [|d ds IH]; intros top Ht Hv Hne; [now destruct Hne|].
  apply Forall_cons in Hv as [Hd Hv]. cbn [foldl].
  destruct ds as [|d' ds]; [now apply join_valid|].
  rewrite IH; [|rewrite join_valid|exact Hv|discriminate]; trivial.
  - rewrite (join_valid top d Ht Hd).
    destruct Hd as [Hd1 Hd2].
    rewrite endswith_slash_app, (endswith_slash_no_sep d Hd2) by exact Hd1.
    cbn [String.concat]. now rewrite !app_assoc_str.
  - apply truthy_app_r. apply Hd.
Qed.



(** *** [str.replace] on a path *)

Lemma replace_scan_drop old new s : forall k,
  Py.replace_scan old new k s = Py.replace_scan old new 0 (Py.drop k s).
Proof.
  induction s as [|c s IH]; intros [|k]; try reflexivity. simpl. apply IH.
Qed.

Lemma drop_app_length_str a b : Py.drop (String.length a) (a +:+ b) = b.
Proof. induction a as [|c a IH]; [reflexivity | exact IH]. Qed.

Lemma replace_no_occurrence old new s :
  Py.truthy old = true -> occurs old s = false -> Py.replace old new s = s.
Proof.
  intros Ho H. unfold Py.replace. destruct old as [|a old]; [discriminate|].
  induction s as [|c s IH]; [reflexivity|].
  cbn [occurs] in H. apply orb_false_iff in H as [H1 H2].
  cbn [Py.replace_scan]. rewrite H1. f_equal. now apply IH.
Qed.

Lemma replace_prefix old rest :
  Py.truthy old = true ->
  Py.replace old "" (old +:+ rest) = Py.replace old "" rest.
Proof.
  intros Ho. unfold Py.replace. destruct old as [|a old]; [discriminate|].
  change (String a old +:+ rest) with (String a (old +:+ rest)).
  cbn [Py.replace_scan].
  change (String a (old +:+ rest)) with (String a old +:+ rest).
  rewrite startswith_refl_app.
  replace (String.length (String a old) - 1) with (String.length old)
    by (simpl; lia).
  rewrite replace_scan_drop, drop_app_length_str. reflexivity.
Qed.

(** Removing a root that ends the scan at the front of a path leaves the
    rest of the path when the root does not occur in it again. *)
Lemma replace_root top rel :
  Py.truthy top = true -> occurs top rel = false ->
  Py.replace top "" (top +:+ rel) = rel.
Proof.
  intros Ht Ho. rewrite replace_prefix by exact Ht.
  now apply replace_no_occurrence.
Qed.

(** *** The trace and the records of [run] *)

Lemma run_outfiles self headers w :
  outfiles (run self headers w).1
    = outfiles self ++ map install_dst (installs (install_dir self) w headers).
Proof.
  destruct headers as [|h headers]; [simpl; now rewrite app_nil_r|].
  rewrite run_eq. apply foldl_do_install_outfiles.
Qed.

Lemma run_log self h headers w :
  log (run self (h :: headers) w).2
    = log w ++ EMkPath (install_dir self)
        :: flat_map install_events (installs (install_dir self) w (h :: headers)).
Proof.
  rewrite run_eq, foldl_do_install_log. simpl. now rewrite <- app_assoc.
Qed.

Lemma In_install_events p t l :
  In (ECopyFile p t) (flat_map install_events l) <-> exists d, In (p, t, d) l.
Proof.
  split.
  - intros H. apply in_flat_map in H as ([[p' t'] d'] & Hin & H).
    destruct H as [H|[H|[]]]; [discriminate|].
    unfold install_dst in H. simpl in H. injection H as -> ->. now exists d'.
  - intros [d H]. apply in_flat_map. exists (p, t, d). split; [exact H|].
    right. now left.
Qed.

Lemma run_copies self h headers w p t :
  In (ECopyFile p t) (drop (length (log w)) (log (run self (h :: headers) w).2))
  <-> exists d, In (p, t, d) (installs (install_dir self) w (h :: headers)).
Proof.
  rewrite run_log, drop_app_length. rewrite <- In_install_events.
  split; [intros [H|H]; [discriminate | exact H] | intros H; now right].
Qed.

(** *** The suffix test *)

Lemma endswith_app_sep suf x f :
  Py.mem "/" suf = false ->
  Py.endswith suf (x +:+ "/" +:+ f) = Py.endswith suf f.
Proof.
  intros Hs.
  assert (Hno : forall y, String.eqb (y +:+ "/" +:+ f) suf = false).
  { intros y. apply String.eqb_neq. intros <-.
    clear -Hs. induction y as [|a y IH]; simpl in Hs.
    - discriminate Hs.
    - apply orb_false_iff in Hs as [_ Hs]. now apply IH. }
  induction x as [|a x IH].
  - change ("" +:+ "/" +:+ f) with (String "/" f). cbn [Py.endswith].
    change (String "/" f) with ("" +:+ "/" +:+ f). now rewrite Hno.
  - change (String a x +:+ "/" +:+ f) with (String a (x +:+ "/" +:+ f)).
    cbn [Py.endswith]. rewrite IH.
    change (String a (x +:+ "/" +:+ f)) with (String a x +:+ "/" +:+ f).
    now rewrite Hno.
Qed.

Lemma endswith_join_iff suf a f :
  Py.mem "/" suf = false ->
  Py.endswith suf (posixpath.join a f) = Py.endswith suf f.
Proof.
  intros Hs. unfold posixpath.join.
  destruct (Py.startswith "/" f); [reflexivity|].
  destruct a as [|c a]; [reflexivity|]. simpl negb. rewrite orb_false_l.
  destruct (Py.endswith "/" (String c a)) eqn:E.
  - apply endswith_spec in E as [pre ->]. rewrite app_assoc_str.
    now apply endswith_app_sep.
  - now apply endswith_app_sep.
Qed.

Lemma length_app_str a b : String.length (a +:+ b) = String.length a + String.length b.
Proof. induction a as [|c a IH]; simpl; [reflexivity | now rewrite IH]. Qed.

Lemma endswith_app_long suf pre s :
  String.length suf <= String.length s ->
  Py.endswith suf (pre +:+ s) = Py.endswith suf s.
Proof.
  intros Hl. induction pre as [|a pre IH]; [reflexivity|].
  simpl. cbn [Py.endswith]. rewrite IH.
  replace (String.eqb (String a (pre +:+ s)) suf) with false; [reflexivity|].
  symmetry. apply String.eqb_neq. intros <-.
  simpl in Hl. rewrite length_app_str in Hl. lia.
Qed.

(** A name with one of the suffixes [.hpp], [.hxx], [.cuh] does not end in
    [.h]. *)
Lemma other_suffix_not_header f :
  Py.endswith ".hpp" f = true \/ Py.endswith ".hxx" f = true \/
  Py.endswith ".cuh" f = true ->
  Py.endswith ".h" f = false.
Proof.
  intros [H|[H|H]]; apply endswith_spec in H as [pre ->];
    rewrite endswith_app_long by (simpl; lia); reflexivity.
Qed.

(** C10: a file below a header root, whatever the names of the directories
    above it, is copied by [run] exactly when its name ends in [.h]; a file
    whose name ends in [.hpp], [.hxx] or [.cuh] is not copied. *)
Theorem header_suffix_filter self headers w h root ds dirpath entries f data :
  In h headers ->
  trees w !! h = Some root ->
  subdir h root ds dirpath entries ->
  In (f, File data) entries ->
  let copied :=
    exists t, In (ECopyFile (posixpath.join dirpath f) t)
                 (drop (length (log w)) (log (run self headers w).2)) in
  (copied <-> Py.endswith ".h" f = true) /\
  (Py.endswith ".hpp" f = true \/ Py.endswith ".hxx" f = true \/
   Py.endswith ".cuh" f = true -> ~ copied).
Proof.
  intros Hh Ht Hsub Hf copied.
  assert (Hiff : copied <-> Py.endswith ".h" f = true).
  { unfold copied. destruct headers as [|h0 headers]; [destruct Hh|]. split.
    - intros [t H]. apply run_copies in H as [d H].
      apply installs_suffix in H. now rewrite endswith_join_iff in H.
    - intros Hs. eexists. apply run_copies. exists data.
      apply (installs_In _ _ _ h); [exact Hh|].
      now apply (header_installs_In _ _ _ root ds dirpath entries). }
  split; [exact Hiff|].
  intros Ho Hc. apply Hiff in Hc. now rewrite (other_suffix_not_header f Ho) in Hc.
Qed.

(** The file [types.hpp] of the include directory is not copied. *)
Lemma header_suffix_filter_witness :
  let copied :=
    exists t, In (ECopyFile (posixpath.join "cpp/include/cudf" "types.hpp") t)
                 (drop (length (log include_world))
                    (log (run (InstallHeaders "inst" []) ["cpp/include/"]
                            include_world).2)) in
  (copied <-> Py.endswith ".h" "types.hpp" = true) /\
  (Py.endswith ".hpp" "types.hpp" = true \/ Py.endswith ".hxx" "types.hpp" = true \/
   Py.endswith ".cuh" "types.hpp" = true -> ~ copied).
Proof.
  apply (header_suffix_filter (InstallHeaders "inst" []) ["cpp/include/"]
           include_world "cpp/include/"
           (Dir [("cudf", Dir [("types.h", File "typedef int gdf_size_type;");
                               ("types.hpp", File "#pragma once")]);
                 ("README.md", File "headers")])
           ["cudf"] "cpp/include/cudf"
           [("types.h", File "typedef int gdf_size_type;");
            ("types.hpp", File "#pragma once")]
           "types.hpp" "#pragma once").
  - left. reflexivity.
  - reflexivity.
  - eapply subdir_step.
    + left. reflexivity.
    + exact (subdir_top "cpp/include/cudf" _).
  - right. left. reflexivity.
Defined.

(** *** The tree below a root *)

Lemma run_fold self headers w :
  headers <> [] ->
  run self headers w =
    foldl do_install (self, mkpath (install_dir self) w)
      (installs (install_dir self) w headers).
Proof. destruct headers; [congruence | intros _; apply run_eq]. Qed.


(** A root declared without its trailing slash: the rest of the path starts
    with a slash, [os.path.join] drops the install directory and the header
    lands outside of it. *)
Lemma root_without_slash_leaves_install_dir :
  log (run (InstallHeaders "inst" []) ["cpp/include"] no_slash_world).2
    = [EMkPath "inst"; EMkPath "/cudf";
       ECopyFile "cpp/include/cudf/types.h" "/cudf/types.h"] /\
  files (run (InstallHeaders "inst" []) ["cpp/include"] no_slash_world).2
    !! "inst/cudf/types.h" = None.
Proof. split; reflexivity. Qed.

(** A root whose name occurs again below it: [str.replace] removes the
    second occurrence as well, and the nested header is sent to the
    destination of the one at the top. *)
Lemma root_name_below_root_is_removed :
  log (run (InstallHeaders "inst" []) ["a/"] nested_name_world).2
    = [EMkPath "inst"; EMkPath "inst"; ECopyFile "a/x.h" "inst/x.h";
       EMkPath "inst"; ECopyFile "a/a/x.h" "inst/x.h"] /\
  files (run (InstallHeaders "inst" []) ["a/"] nested_name_world).2 !! "inst/a/x.h"
    = None.
Proof. split; reflexivity. Qed.




(** *** Two roots with the same destination *)

Lemma installs_app dir w hs1 hs2 :
  installs dir w (hs1 ++ hs2) = installs dir w hs1 ++ installs dir w hs2.
Proof. unfold installs. apply flat_map_app. Qed.

Lemma installs_cons dir w h hs :
  installs dir w (h :: hs) = header_installs dir w h ++ installs dir w hs.
Proof. reflexivity. Qed.

Lemma records_for_app t l1 l2 :
  records_for t (l1 ++ l2) = records_for t l1 + records_for t l2.
Proof. unfold records_for. now rewrite List.filter_app, length_app. Qed.

Lemma to_dst_app t l1 l2 : to_dst t (l1 ++ l2) = to_dst t l1 ++ to_dst t l2.
Proof. apply List.filter_app. Qed.

Lemma to_dst_installs_nil dir w hs t :
  (forall h, In h hs -> to_dst t (header_installs dir w h) = []) ->
  to_dst t (installs dir w hs) = [].
Proof.
  induction hs as [|h hs IH]; intros H; [reflexivity|].
  rewrite installs_cons, to_dst_app, (H h) by now left.
  apply IH. intros h' Hh'. apply H. now right.
Qed.

Lemma records_for_to_dst t l :
  records_for t (map install_dst l) = length (to_dst t l).
Proof.
  unfold records_for, to_dst. induction l as [|i l IH]; [reflexivity|].
  simpl. rewrite (String.eqb_sym t). destruct (String.eqb (install_dst i) t);
    simpl; now rewrite IH.
Qed.

(** The content and the time of the destination [t] after the copies of [l]
    are those after the copies of [l] made to [t]. *)
Lemma foldl_do_install_to_dst l t : forall st st',
  force st.1 = force st'.1 ->
  source_mtime st.2 = source_mtime st'.2 ->
  files st.2 !! t = files st'.2 !! t ->
  mtime st.2 t = mtime st'.2 t ->
  files (foldl do_install st l).2 !! t
    = files (foldl do_install st' (to_dst t l)).2 !! t.
Proof.
  induction l as [|i l IH]; intros st st' Hf Hs Hfi Hm; [exact Hfi|].
  cbn [foldl to_dst List.filter]. fold (to_dst t l).
  destruct (do_install_spec st i)
    as (_ & Hf1 & _ & _ & _ & Hs1 & _ & _ & _ & Hm1).
  destruct (String.eqb_spec (install_dst i) t) as [E|E].
  - cbn [foldl].
    destruct (do_install_spec st' i)
      as (_ & Hf2 & _ & _ & _ & Hs2 & _ & _ & _ & Hm2).
    assert (Hc : install_copies st i = install_copies st' i).
    { unfold install_copies, copies, newer. rewrite E, Hf, Hs, Hfi.
      destruct (files st'.2 !! t); [now rewrite Hm | reflexivity]. }
    apply IH.
    + now rewrite Hf1, Hf2.
    + now rewrite Hs1, Hs2.
    + rewrite !do_install_files, Hc, Hfi. reflexivity.
    + rewrite Hm1, Hm2, Hc. destruct (install_copies st' i); [|exact Hm].
      cbv beta. rewrite Hs.
      destruct (String.eqb t (install_dst i)); [reflexivity | exact Hm].
  - apply IH.
    + now rewrite Hf1.
    + now rewrite Hs1.
    + rewrite do_install_files.
      destruct (decide (install_dst i = t)); [contradiction | exact Hfi].
    + rewrite Hm1. destruct (install_copies st i); [|exact Hm].
      destruct (String.eqb_spec t (install_dst i)) as [E'|E'];
        [now destruct E | exact Hm].
Qed.

(** C6, as the specification states it, fails for two roots that hold a file
    at the same relative path: the destination is recorded twice, once for
    each call of [copy_file], also when the file of the second root is the
    more recent and replaces the first; with files of the same age the copy
    of the second root is skipped and the bytes of the first root stay. *)
Lemma two_records_for_shared_path :
  outfiles (run (InstallHeaders "inst" []) ["a/"; "b/"] two_roots_world).1
    = ["inst/x.h"; "inst/x.h"] /\
  files (run (InstallHeaders "inst" []) ["a/"; "b/"] two_roots_world).2 !! "inst/x.h"
    = Some "int a;" /\
  ~ single_record (InstallHeaders "inst" []) ["a/"; "b/"] two_roots_world
      "inst/x.h" "int b;" /\
  files (run (InstallHeaders "inst" []) ["a/"; "b/"] two_roots_newer_world).2
    !! "inst/x.h" = Some "int b;" /\
  ~ single_record (InstallHeaders "inst" []) ["a/"; "b/"] two_roots_newer_world
      "inst/x.h" "int b;".
Proof.
  split; [reflexivity|]. split; [reflexivity|]. split; [|split; [reflexivity|]];
    intros [H _]; vm_compute in H; discriminate H.
Qed.

(** C6 (amended): when two header roots each give one file the same
    destination, no other root does, and the destination is missing before
    the run, then after the run the destination holds the file of the
    later-registered root if the command runs with [force] or this file was
    modified strictly later than the file of the earlier root, and the file
    of the earlier root otherwise, the second copy being skipped;
    [outfiles] gets a record for each of the two calls of [copy_file], hence
    two records for this destination. *)
Theorem shared_destination self w hs1 h1 hs2 h2 hs3 p1 d1 p2 d2 t :
  let dir := install_dir self in
  let headers := hs1 ++ h1 :: hs2 ++ h2 :: hs3 in
  to_dst t (header_installs dir w h1) = [(p1, t, d1)] ->
  to_dst t (header_installs dir w h2) = [(p2, t, d2)] ->
  (forall h, In h (hs1 ++ hs2 ++ hs3) -> to_dst t (header_installs dir w h) = []) ->
  files w !! t = None ->
  files (run self headers w).2 !! t
    = Some (if force self || Z.ltb (source_mtime w p1) (source_mtime w p2)
            then d2 else d1) /\
  records_for t (drop (length (outfiles self)) (outfiles (run self headers w).1)) = 2.
Proof.
  intros dir headers H1 H2 Hnone Hfresh.
  assert (Hto : to_dst t (installs dir w headers) = [(p1, t, d1); (p2, t, d2)]).
  { unfold headers.
    rewrite installs_app, installs_cons, installs_app, installs_cons.
    rewrite !to_dst_app, H1, H2.
    rewrite !to_dst_installs_nil; [reflexivity|..];
      intros h Hh; apply Hnone; rewrite !in_app_iff; auto. }
  split.
  - rewrite run_fold by (unfold headers; now destruct hs1).
    fold dir.
    rewrite (foldl_do_install_to_dst _ t _ (self, mkpath dir w)) by reflexivity.
    rewrite Hto. cbn [foldl].
    set (st0 := (self, mkpath dir w)).
    assert (Hc1 : install_copies st0 (p1, t, d1) = true).
    { unfold install_copies, copies, newer, install_dst. simpl.
      rewrite Hfresh. apply orb_true_r. }
    destruct (do_install_spec st0 (p1, t, d1))
      as (_ & Hf1 & _ & _ & _ & Hs1 & _ & _ & Hfi1 & Hm1).
    rewrite Hc1 in Hfi1, Hm1.
    rewrite do_install_files.
    destruct (decide (install_dst (p2, t, d2) = t)) as [_|E]; [|now destruct E].
    assert (Hc2 : install_copies (do_install st0 (p1, t, d1)) (p2, t, d2)
                  = force self || Z.ltb (source_mtime w p1) (source_mtime w p2)).
    { unfold install_copies, copies, newer.
      rewrite Hf1, Hfi1, Hm1, Hs1. unfold install_dst. simpl.
      rewrite lookup_insert_eq, String.eqb_refl. reflexivity. }
    rewrite Hc2.
    destruct (force self || Z.ltb (source_mtime w p1) (source_mtime w p2));
      [reflexivity|].
    rewrite Hfi1. unfold install_dst. simpl. apply lookup_insert_eq.
  - rewrite run_outfiles, drop_app_length. fold dir.
    now rewrite records_for_to_dst, Hto.
Qed.

(** The roots [a/] and [b/], which both hold [x.h]; the file of [b/] is the
    more recent. *)
Lemma shared_destination_witness :
  files (run (InstallHeaders "inst" []) ([] ++ "a/" :: [] ++ "b/" :: [])
           two_roots_newer_world).2 !! "inst/x.h"
    = Some (if force (InstallHeaders "inst" [])
               || Z.ltb (source_mtime two_roots_newer_world "a/x.h")
                        (source_mtime two_roots_newer_world "b/x.h")
            then "int b;" else "int a;") /\
  records_for "inst/x.h"
    (drop (length (outfiles (InstallHeaders "inst" [])))
       (outfiles (run (InstallHeaders "inst" []) ([] ++ "a/" :: [] ++ "b/" :: [])
                    two_roots_newer_world).1)) = 2.
Proof.
  apply (shared_destination (InstallHeaders "inst" []) two_roots_newer_world
           [] "a/" [] "b/" [] "a/x.h" "int a;" "b/x.h" "int b;" "inst/x.h").
  - reflexivity.
  - reflexivity.
  - intros h [].
  - reflexivity.
Defined.

(** * Further properties *)

(** ** One native build *)

(** The world a native build leaves: the trace grows by [native_events], the
    build directory exists, nothing else changes. *)
Lemma build_native_world abspath exe self ext w :
  let w' := final_world (build_extension abspath exe self (Native ext) w) in
  log w' = log w ++ native_events abspath exe self ext w /\
  environ w' = environ w /\
  files w' = files w /\
  trees w' = trees w /\
  exit_status w' = exit_status w /\
  std_fails w' = std_fails w /\
  dirs w' = (if temp_exists self w then dirs w else {[build_temp self]} ∪ dirs w).
Proof.
  cbv zeta. rewrite build_native_cases. cbv zeta.
  unfold native_events, before_configure, temp_exists.
  destruct (bool_decide _ || bool_decide _);
    destruct (Z.eqb (configure_status _ _ _ _ _) 0);
    try destruct (Z.eqb (make_status _ _ _ _ _) 0);
    simpl; rewrite <- ?app_assoc; repeat split.
Qed.

Lemma build_native_ok abspath exe self ext w :
  (exists w', build_extension abspath exe self (Native ext) w = Ok tt w') <->
  configure_status abspath exe self ext w = 0%Z /\
  make_status abspath exe self ext w = 0%Z.
Proof.
  rewrite build_native_cases. cbv zeta.
  destruct (Z.eqb_spec (configure_status abspath exe self ext w) 0) as [E|E].
  - destruct (Z.eqb_spec (make_status abspath exe self ext w) 0) as [E'|E'].
    + split; [now intros _ | intros _; eauto].
    + split; [intros [w' [=]] | intros [_ H]; contradiction].
  - split; [intros [w' [=]] | intros [H _]; contradiction].
Qed.

Lemma children_app l1 l2 : children (l1 ++ l2) = children l1 ++ children l2.
Proof.
  induction l1 as [|e l1 IH]; [reflexivity|].
  destruct e; simpl; now rewrite ?IH.
Qed.

Lemma made_dirs_app l1 l2 : made_dirs (l1 ++ l2) = made_dirs l1 ++ made_dirs l2.
Proof.
  induction l1 as [|e l1 IH]; [reflexivity|].
  destruct e; simpl; now rewrite ?IH.
Qed.

Lemma build_steps_app l1 l2 : build_steps (l1 ++ l2) = build_steps l1 ++ build_steps l2.
Proof.
  induction l1 as [|e l1 IH]; [reflexivity|].
  destruct e; simpl; rewrite ?IH; try reflexivity.
  now destruct (make_target argv).
Qed.

Lemma removed_trees_app l1 l2 :
  removed_trees (l1 ++ l2) = removed_trees l1 ++ removed_trees l2.
Proof.
  induction l1 as [|e l1 IH]; [reflexivity|].
  destruct e; simpl; now rewrite ?IH.
Qed.

(** X1: in [build_extension] for a native descriptor the build step is
    started only after a configure step that returned zero: the child
    processes are the configure step alone when it returns a non-zero status,
    and the configure step followed by [make -j name] otherwise. The call
    raises [CalledProcessError] with the status and the command line of the
    step that failed, and completes when both steps return zero. *)
Theorem build_step_follows_configure abspath exe self ext w :
  let r := build_extension abspath exe self (Native ext) w in
  let cfg := cmake_args abspath exe self ext (environ w) in
  let mk := ["make"; "-j"; CMakeExtension.name ext] in
  let cs := configure_status abspath exe self ext w in
  let ms := make_status abspath exe self ext w in
  spawned (trace_since w r) = cfg :: (if Z.eqb cs 0 then [mk] else []) /\
  (cs <> 0%Z -> exists w', r = Raise (CalledProcessError cs cfg) w') /\
  (cs = 0%Z -> ms <> 0%Z -> exists w', r = Raise (CalledProcessError ms mk) w') /\
  (cs = 0%Z -> ms = 0%Z -> exists w', r = Ok tt w').
Proof.
  cbv zeta. split.
  - destruct (build_native_world abspath exe self ext w) as (Hlog & _).
    rewrite (trace_since_app _ _ _ Hlog). unfold native_events.
    rewrite spawned_app. destruct (temp_exists self w); simpl;
      destruct (Z.eqb _ 0); try destruct (Z.eqb _ 0); reflexivity.
  - rewrite build_native_cases. cbv zeta.
    destruct (Z.eqb_spec (configure_status abspath exe self ext w) 0) as [E|E];
      [destruct (Z.eqb_spec (make_status abspath exe self ext w) 0) as [E'|E']|];
      repeat split; intros; try contradiction; eauto.
Qed.

Lemma build_step_follows_configure_witness :
  let self := BuildExt false "build/temp" (fun n => "build/lib/" +:+ n) in
  let ext := CMakeExtension.Make "rmm" "/cpp" in
  let w := fresh_world ∅ ∅ 2 in
  let r := build_extension (fun p => p) "cmake" self (Native ext) w in
  let cfg := cmake_args (fun p => p) "cmake" self ext (environ w) in
  let mk := ["make"; "-j"; CMakeExtension.name ext] in
  let cs := configure_status (fun p => p) "cmake" self ext w in
  let ms := make_status (fun p => p) "cmake" self ext w in
  spawned (trace_since w r) = cfg :: (if Z.eqb cs 0 then [mk] else []) /\
  (cs <> 0%Z -> exists w', r = Raise (CalledProcessError cs cfg) w') /\
  (cs = 0%Z -> ms <> 0%Z -> exists w', r = Raise (CalledProcessError ms mk) w') /\
  (cs = 0%Z -> ms = 0%Z -> exists w', r = Ok tt w').
Proof.
  exact (build_step_follows_configure (fun p => p) "cmake"
           (BuildExt false "build/temp" (fun n => "build/lib/" +:+ n))
           (CMakeExtension.Make "rmm" "/cpp") (fresh_world ∅ ∅ 2)).
Defined.

(** ** Any descriptor *)

Lemma build_extension_world abspath exe self ext w :
  let w' := final_world (build_extension abspath exe self ext w) in
  log w' = log w ++ ext_events abspath exe self ext w /\
  environ w' = environ w /\
  files w' = files w /\
  trees w' = trees w /\
  exit_status w' = exit_status w /\
  std_fails w' = std_fails w /\
  (temp_exists self w = true -> dirs w' = dirs w) /\
  (temp_exists self w = true -> temp_exists self w' = true) /\
  (forall e, ext = Native e -> temp_exists self w' = true).
Proof.
  destruct ext as [e|e]; cbv zeta.
  - destruct (build_native_world abspath exe self e w)
      as (Hl & He & Hf & Ht & Hx & Hs & Hd).
    repeat split; try assumption.
    + intros H. now rewrite Hd, H.
    + intros H. unfold temp_exists in *. now rewrite Hd, Hf, H.
    + intros _ _. unfold temp_exists in *. rewrite Hd, Hf.
      destruct (bool_decide (build_temp self ∈ dirs w)
                || bool_decide (is_Some (files w !! build_temp self))) eqn:E;
        [exact E|].
      apply orb_true_iff. left. apply bool_decide_eq_true.
      apply elem_of_union. left. now apply elem_of_singleton.
  - unfold build_extension, std_build_extension.
    destruct (std_fails w (Extension.name e)); simpl; repeat split; auto;
      intros ? [=].
Qed.

Lemma build_extensions_serial_cons abspath exe self ext rest w :
  build_extensions_serial abspath exe self (ext :: rest) w =
    match build_extension abspath exe self ext w with
    | Ok _ w1 => build_extensions_serial abspath exe self rest w1
    | Raise e w1 => Raise e w1
    end.
Proof. reflexivity. Qed.

(** The trace of a serial run is the trace of the first descriptor followed
    by the trace of the rest of the run. *)
Lemma build_extensions_serial_trace abspath exe self ext rest w :
  exists tl,
    trace_since w (build_extensions_serial abspath exe self (ext :: rest) w)
      = ext_events abspath exe self ext w ++ tl /\
    match build_extension abspath exe self ext w with
    | Ok _ w1 =>
        tl = trace_since w1 (build_extensions_serial abspath exe self rest w1)
    | Raise _ _ => tl = []
    end.
Proof.
  pose proof (build_extension_world abspath exe self ext w) as (Hl & _).
  rewrite build_extensions_serial_cons.
  destruct (build_extension abspath exe self ext w) as [[] w1|e w1]; simpl in Hl.
  - exists (trace_since w1 (build_extensions_serial abspath exe self rest w1)).
    split; [|reflexivity]. unfold trace_since at 1.
    assert (Hext : exists evs,
              log (final_world (build_extensions_serial abspath exe self rest w1))
                = log w1 ++ evs).
    { clear. revert w1. induction rest as [|x rest IH]; intros w1.
      - exists []. simpl. now rewrite app_nil_r.
      - rewrite build_extensions_serial_cons.
        pose proof (build_extension_world abspath exe self x w1) as (Hl & _).
        destruct (build_extension abspath exe self x w1) as [[] w2|e w2];
          simpl in Hl.
        + destruct (IH w2) as [evs Hevs]. rewrite Hevs, Hl, <- app_assoc. eauto.
        + simpl. eauto. }
    destruct Hext as [evs Hevs].
    rewrite (trace_since_app _ _ _ Hevs), Hevs, Hl, <- app_assoc.
    now rewrite drop_app_length.
  - exists []. split; [|reflexivity]. rewrite app_nil_r.
    now apply trace_since_app.
Qed.

Lemma cmake_args_not_make abspath exe self ext env :
  make_target (cmake_args abspath exe self ext env) = None.
Proof. unfold cmake_args. simpl. now destruct (common_variables env). Qed.

Lemma ext_events_steps abspath exe self ext w :
  build_steps (ext_events abspath exe self ext w) = [] \/
  build_steps (ext_events abspath exe self ext w) = [step_of ext].
Proof.
  destruct ext as [e|e]; [|right; reflexivity].
  unfold ext_events, native_events. rewrite build_steps_app.
  replace (build_steps (if temp_exists self w then [] else [EMakeDirs (build_temp self)]))
    with (@nil step) by now destruct (temp_exists self w).
  cbn [app build_steps]. rewrite cmake_args_not_make.
  destruct (Z.eqb _ 0); [right|left; reflexivity].
  cbn. now destruct (Z.eqb _ 0).
Qed.

Lemma ext_events_steps_ok abspath exe self ext w w1 :
  build_extension abspath exe self ext w = Ok tt w1 ->
  build_steps (ext_events abspath exe self ext w) = [step_of ext].
Proof.
  intros H. destruct ext as [e|e]; [|reflexivity].
  assert (Hok : exists w', build_extension abspath exe self (Native e) w = Ok tt w')
    by eauto.
  apply build_native_ok in Hok as [Hc Hm].
  unfold ext_events, native_events. rewrite build_steps_app, Hc, Hm.
  replace (build_steps (if temp_exists self w then [] else [EMakeDirs (build_temp self)]))
    with (@nil step) by now destruct (temp_exists self w).
  cbn [app build_steps]. now rewrite cmake_args_not_make.
Qed.

(** X2: without [--parallel] the descriptors are built in the order of
    registration, each on its own path: the build steps of a run of
    [build_extensions] ([make -j name] for a native descriptor, the compiler
    of [distutils] for a standard one) are those of a prefix of the
    descriptor list, in order, and those of the whole list when the run
    completes. *)
Theorem serial_build_order abspath exe self exts w :
  parallel self = 0 ->
  let r := build_extensions abspath exe self exts w in
  build_steps (trace_since w r) `prefix_of` map step_of exts /\
  ((exists w', r = Ok tt w') -> build_steps (trace_since w r) = map step_of exts).
Proof.
  intros Hp. cbv zeta. rewrite (build_extensions_is_serial _ _ _ _ Hp). clear Hp.
  revert w. induction exts as [|ext exts IH]; intros w.
  - unfold trace_since. simpl. rewrite drop_all. split; [reflexivity|auto].
  - destruct (build_extensions_serial_trace abspath exe self ext exts w)
      as (tl & Htr & Htl).
    rewrite Htr, build_steps_app. rewrite build_extensions_serial_cons.
    destruct (build_extension abspath exe self ext w) as [[] w1|e w1] eqn:E.
    + subst tl. destruct (IH w1) as [IHp IHe].
      rewrite (ext_events_steps_ok _ _ _ _ _ _ E). split.
      * simpl. now apply prefix_cons.
      * intros Hok. simpl. f_equal. now apply IHe.
    + subst tl. rewrite app_nil_r. split; [|intros [w' [=]]].
      destruct (ext_events_steps abspath exe self ext w) as [-> | ->].
      * apply prefix_nil.
      * simpl. apply prefix_cons, prefix_nil.
Qed.

Lemma serial_build_order_witness :
  let self := BuildExt false "build/temp" (fun n => "build/lib/" +:+ n) in
  let exts := [Native (CMakeExtension.Make "rmm" "/cpp");
               Standard (Extension.Make "*" [] [] [] [] "c++" [])] in
  let w := fresh_world ∅ ∅ 0 in
  let r := build_extensions (fun p => p) "cmake" self exts w in
  parallel self = 0 /\
  build_steps (trace_since w r) `prefix_of` map step_of exts /\
  ((exists w', r = Ok tt w') -> build_steps (trace_since w r) = map step_of exts).
Proof.
  split; [reflexivity|].
  apply (serial_build_order (fun p => p) "cmake"
           (BuildExt false "build/temp" (fun n => "build/lib/" +:+ n))
           [Native (CMakeExtension.Make "rmm" "/cpp");
            Standard (Extension.Make "*" [] [] [] [] "c++" [])]
           (fresh_world ∅ ∅ 0)).
  reflexivity.
Defined.

(** X3: without [--parallel], every process that a run of
    [build_extensions] starts with [subprocess.check_call] (the generator and
    [make] of the native descriptors) runs in the build directory of the
    command and gets the environment of the process as it was when the run
    started; the run leaves [os.environ] as it was. *)
Theorem check_call_cwd_env abspath exe self exts w :
  parallel self = 0 ->
  let r := build_extensions abspath exe self exts w in
  (forall argv cwd env, In (argv, cwd, env) (children (trace_since w r)) ->
     cwd = build_temp self /\ env = environ w) /\
  environ (final_world r) = environ w.
Proof.
  intros Hp. cbv zeta. rewrite (build_extensions_is_serial _ _ _ _ Hp). clear Hp.
  revert w. induction exts as [|ext exts IH]; intros w.
  - unfold trace_since. simpl. rewrite drop_all. split; [intros ? ? ? []|auto].
  - destruct (build_extensions_serial_trace abspath exe self ext exts w)
      as (tl & Htr & Htl).
    rewrite Htr, children_app. rewrite build_extensions_serial_cons.
    pose proof (build_extension_world abspath exe self ext w) as (_ & He & _).
    assert (Hfirst : forall argv cwd env,
              In (argv, cwd, env) (children (ext_events abspath exe self ext w)) ->
              cwd = build_temp self /\ env = environ w).
    { intros argv cwd env Hin. destruct ext as [e|e]; [|destruct Hin].
      unfold ext_events, native_events in Hin. rewrite children_app in Hin.
      apply in_app_or in Hin as [Hin|Hin].
      - destruct (temp_exists self w); destruct Hin.
      - simpl in Hin. destruct Hin as [[= <- <- <-]|Hin]; [now split|].
        destruct (Z.eqb _ 0); [|destruct Hin]. simpl in Hin.
        destruct Hin as [[= <- <- <-]|Hin]; [now split|].
        destruct (Z.eqb _ 0); destruct Hin. }
    destruct (build_extension abspath exe self ext w) as [[] w1|e w1];
      simpl in He.
    + subst tl. destruct (IH w1) as (IHc & IHe).
      rewrite IHe, He. split; [|auto].
      intros argv cwd env Hin. apply in_app_or in Hin as [Hin|Hin].
      * exact (Hfirst _ _ _ Hin).
      * rewrite <- He. exact (IHc _ _ _ Hin).
    + subst tl. simpl. split; [|auto].
      intros argv cwd env Hin. rewrite app_nil_r in Hin. exact (Hfirst _ _ _ Hin).
Qed.

Lemma check_call_cwd_env_witness :
  let self := BuildExt false "build/temp" (fun n => "build/lib/" +:+ n) in
  let exts := [Native (CMakeExtension.Make "rmm" "/cpp");
               Native (CMakeExtension.Make "cudf" "/cpp")] in
  let w := fresh_world {["CUDA" := "10.1"]} ∅ 0 in
  let r := build_extensions (fun p => p) "cmake" self exts w in
  parallel self = 0 /\
  (forall argv cwd env, In (argv, cwd, env) (children (trace_since w r)) ->
     cwd = build_temp self /\ env = environ w) /\
  environ (final_world r) = environ w.
Proof.
  split; [reflexivity|].
  apply (check_call_cwd_env (fun p => p) "cmake"
           (BuildExt false "build/temp" (fun n => "build/lib/" +:+ n))
           [Native (CMakeExtension.Make "rmm" "/cpp");
            Native (CMakeExtension.Make "cudf" "/cpp")]
           (fresh_world {["CUDA" := "10.1"]} ∅ 0)).
  reflexivity.
Defined.

(** Once something exists at the build directory, a serial run never calls
    [os.makedirs] and leaves the directories as they are. *)
Lemma build_temp_present abspath exe self exts : forall w,
  temp_exists self w = true ->
  let r := build_extensions_serial abspath exe self exts w in
  made_dirs (trace_since w r) = [] /\ dirs (final_world r) = dirs w.
Proof.
  induction exts as [|ext exts IH]; intros w Hw; cbv zeta.
  - unfold trace_since. simpl. now rewrite drop_all.
  - destruct (build_extensions_serial_trace abspath exe self ext exts w)
      as (tl & Htr & Htl).
    rewrite Htr, made_dirs_app. rewrite build_extensions_serial_cons.
    pose proof (build_extension_world abspath exe self ext w)
      as (_ & _ & _ & _ & _ & _ & Hd & Ht & _).
    assert (Hfirst : made_dirs (ext_events abspath exe self ext w) = []).
    { destruct ext as [e|e]; [|reflexivity].
      unfold ext_events, native_events. rewrite Hw. simpl.
      destruct (Z.eqb _ 0); [|reflexivity]. simpl. now destruct (Z.eqb _ 0). }
    rewrite Hfirst.
    destruct (build_extension abspath exe self ext w) as [[] w1|e w1];
      simpl in Ht, Hd; subst tl.
    + destruct (IH w1 (Ht Hw)) as [Hm Hdd]. cbv zeta in Hm, Hdd.
      rewrite Hm, Hdd. split; [reflexivity | now apply Hd].
    + split; [reflexivity | now apply Hd].
Qed.

(** X4: without [--parallel] the build directory is shared and made at
    most once: when a directory or a file exists at [build_temp] at the start
    of a run of [build_extensions], [os.makedirs] is never called; otherwise
    it is called at most once, for the build directory; and when nothing
    exists there and the first descriptor is native, it is called exactly
    once and the directory is there at the end of the run. *)
Theorem build_temp_made_once abspath exe self exts w :
  parallel self = 0 ->
  let r := build_extensions abspath exe self exts w in
  (temp_exists self w = true -> made_dirs (trace_since w r) = []) /\
  (made_dirs (trace_since w r) = [] \/
   made_dirs (trace_since w r) = [build_temp self]) /\
  (temp_exists self w = false ->
   forall e rest, exts = Native e :: rest ->
     made_dirs (trace_since w r) = [build_temp self] /\
     build_temp self ∈ dirs (final_world r)).
Proof.
  intros Hp. cbv zeta. rewrite (build_extensions_is_serial _ _ _ _ Hp). clear Hp.
  assert (Hnat : forall e rest w, temp_exists self w = false ->
            made_dirs (trace_since w
              (build_extensions_serial abspath exe self (Native e :: rest) w))
              = [build_temp self] /\
            build_temp self
              ∈ dirs (final_world
                        (build_extensions_serial abspath exe self (Native e :: rest) w))).
  { clear. intros e rest w Hw.
    destruct (build_extensions_serial_trace abspath exe self (Native e) rest w)
      as (tl & Htr & Htl).
    rewrite Htr, made_dirs_app. rewrite build_extensions_serial_cons.
    pose proof (build_extension_world abspath exe self (Native e) w)
      as (_ & _ & _ & _ & _ & _ & _ & _ & Hn).
    pose proof (build_native_world abspath exe self e w)
      as (_ & _ & _ & _ & _ & _ & Hd).
    cbv zeta in Hd. rewrite Hw in Hd.
    assert (Hfirst : made_dirs (ext_events abspath exe self (Native e) w)
                       = [build_temp self]).
    { unfold ext_events, native_events. rewrite Hw. simpl.
      destruct (Z.eqb _ 0); [|reflexivity]. simpl. now destruct (Z.eqb _ 0). }
    rewrite Hfirst. specialize (Hn e eq_refl).
    destruct (build_extension abspath exe self (Native e) w) as [[] w1|err w1];
      simpl in Hn, Hd; subst tl.
    - destruct (build_temp_present abspath exe self rest w1 Hn) as [Hm Hdd].
      cbv zeta in Hm, Hdd. rewrite Hm, Hdd, Hd. split; [reflexivity|].
      apply elem_of_union. left. now apply elem_of_singleton.
    - simpl. rewrite Hd. split; [reflexivity|].
      apply elem_of_union. left. now apply elem_of_singleton. }
  assert (Hone : forall exts w,
            made_dirs (trace_since w (build_extensions_serial abspath exe self exts w))
              = [] \/
            made_dirs (trace_since w (build_extensions_serial abspath exe self exts w))
              = [build_temp self]).
  { clear -Hnat. induction exts as [|ext exts IH]; intros w.
    - left. unfold trace_since. simpl. now rewrite drop_all.
    - destruct (temp_exists self w) eqn:Hw;
        [left; now apply (build_temp_present abspath exe self (ext :: exts) w)|].
      destruct ext as [e|e]; [right; now apply Hnat|].
      destruct (build_extensions_serial_trace abspath exe self (Standard e) exts w)
        as (tl & Htr & Htl).
      rewrite Htr, made_dirs_app. simpl.
      destruct (build_extension abspath exe self (Standard e) w) as [[] w1|err w1];
        subst tl; [apply IH | now left]. }
  split; [intros H; now apply (build_temp_present abspath exe self exts w)|].
  split; [apply Hone|].
  intros Hw e rest ->. now apply Hnat.
Qed.

Lemma build_temp_made_once_witness :
  let self := BuildExt false "build/temp" (fun n => "build/lib/" +:+ n) in
  let exts := [Native (CMakeExtension.Make "rmm" "/cpp");
               Native (CMakeExtension.Make "cudf" "/cpp")] in
  let w := fresh_world ∅ ∅ 0 in
  let r := build_extensions (fun p => p) "cmake" self exts w in
  parallel self = 0 /\
  (temp_exists self w = true -> made_dirs (trace_since w r) = []) /\
  (made_dirs (trace_since w r) = [] \/
   made_dirs (trace_since w r) = [build_temp self]) /\
  (temp_exists self w = false ->
   forall e rest, exts = Native e :: rest ->
     made_dirs (trace_since w r) = [build_temp self] /\
     build_temp self ∈ dirs (final_world r)).
Proof.
  split; [reflexivity|].
  apply (build_temp_made_once (fun p => p) "cmake"
           (BuildExt false "build/temp" (fun n => "build/lib/" +:+ n))
           [Native (CMakeExtension.Make "rmm" "/cpp");
            Native (CMakeExtension.Make "cudf" "/cpp")]
           (fresh_world ∅ ∅ 0)).
  reflexivity.
Defined.

(** ** The script as a whole *)

Lemma ext_events_script abspath exe self ext w :
  Forall (script_event exe (environ w)) (ext_events abspath exe self ext w).
Proof.
  destruct ext as [e|e]; [|repeat constructor].
  unfold ext_events, native_events. apply Forall_app. split.
  - destruct (temp_exists self w); repeat constructor.
  - constructor; [simpl; auto|].
    destruct (Z.eqb _ 0); [|constructor].
    constructor; [simpl; auto|]. destruct (Z.eqb _ 0); repeat constructor.
Qed.

(** What a run of [build_extensions] leaves, with or without [--parallel]:
    the trace grows by events of the script and the environment is the
    same. *)
Lemma build_extensions_events abspath exe self exts : forall w,
  let r := build_extensions abspath exe self exts w in
  (exists evs, log (final_world r) = log w ++ evs /\
               Forall (script_event exe (environ w)) evs) /\
  environ (final_world r) = environ w.
Proof.
  unfold build_extensions. destruct (Nat.eqb (parallel self) 0).
  - induction exts as [|ext exts IH]; intros w; cbv zeta.
    + simpl. split; [exists []; now rewrite app_nil_r | reflexivity].
    + rewrite build_extensions_serial_cons.
      pose proof (build_extension_world abspath exe self ext w) as (Hl & He & _).
      pose proof (ext_events_script abspath exe self ext w) as Hev.
      destruct (build_extension abspath exe self ext w) as [[] w1|e w1];
        simpl in Hl, He.
      * destruct (IH w1) as ((evs & Hevs & Hf) & IHe).
        rewrite He in Hf. split.
        -- exists (ext_events abspath exe self ext w ++ evs).
           rewrite Hevs, Hl, <- app_assoc. split; [reflexivity|].
           apply Forall_app. now split.
        -- now rewrite IHe.
      * simpl. split; [eauto | exact He].
  - induction exts as [|ext exts IH]; intros w; cbv zeta.
    + simpl. split; [exists []; now rewrite app_nil_r | reflexivity].
    + cbn [build_extensions_parallel].
      pose proof (build_extension_world abspath exe self ext w) as (Hl & He & _).
      pose proof (ext_events_script abspath exe self ext w) as Hev.
      cbv zeta in Hl, He.
      assert (Hfw : final_world
                (match build_extension abspath exe self ext w with
                 | Ok _ w1 => build_extensions_parallel abspath exe self exts w1
                 | Raise e w1 =>
                     Raise e (final_world
                                (build_extensions_parallel abspath exe self exts w1))
                 end)
              = final_world
                  (build_extensions_parallel abspath exe self exts
                     (final_world (build_extension abspath exe self ext w))))
        by now destruct (build_extension abspath exe self ext w).
      rewrite Hfw.
      destruct (IH (final_world (build_extension abspath exe self ext w)))
        as ((evs & Hevs & Hf) & IHe).
      rewrite He in Hf. split.
      * exists (ext_events abspath exe self ext w ++ evs).
        rewrite Hevs, Hl, <- app_assoc. split; [reflexivity|].
        apply Forall_app. now split.
      * now rewrite IHe.
Qed.

Lemma install_events_script exe env l :
  Forall (script_event exe env) (flat_map install_events l).
Proof. induction l as [|i l IH]; [constructor|]. simpl. now repeat constructor. Qed.

(** What [run] leaves: events of the script, the same environment. *)
Lemma run_events exe self headers w :
  (exists evs, log (run self headers w).2 = log w ++ evs /\
               Forall (script_event exe (environ w)) evs) /\
  environ (run self headers w).2 = environ w.
Proof.
  destruct headers as [|h headers].
  - simpl. split; [exists []; now rewrite app_nil_r | reflexivity].
  - split.
    + eexists. split; [apply run_log|].
      constructor; [exact I | apply install_events_script].
    + rewrite run_eq.
      generalize (installs (install_dir self) w (h :: headers)).
      intros l.
      change (environ w) with (environ (self, mkpath (install_dir self) w).2).
      generalize (self, mkpath (install_dir self) w).
      induction l as [|i l IH]; intros st; [reflexivity|].
      cbn [foldl]. rewrite IH. unfold do_install, copy_file. simpl.
      now destruct (copies _ _ _ _).
Qed.

Lemma run_commands_events abspath exe exts headers commands : forall w,
  let r := run_commands abspath exe exts headers commands w in
  exists evs, log (final_world r) = log w ++ evs /\
              Forall (script_event exe (environ w)) evs.
Proof.
  induction commands as [|[self|self] commands IH]; intros w; cbv zeta.
  - simpl. exists []. now rewrite app_nil_r.
  - cbn [run_commands]. unfold bind.
    pose proof (build_extensions_events abspath exe self exts w)
      as ((evs & Hl & Hf) & He).
    destruct (build_extensions abspath exe self exts w) as [[] w1|e w1];
      simpl in Hl, He.
    + destruct (IH w1) as (evs' & Hl' & Hf').
      rewrite He in Hf'.
      exists (evs ++ evs'). rewrite Hl', Hl, <- app_assoc. split; [reflexivity|].
      apply Forall_app. now split.
    + simpl. eauto.
  - cbn [run_commands]. unfold bind, effect.
    destruct (run_events exe self headers w) as ((evs & Hl & Hf) & He).
    destruct (IH (run self headers w).2) as (evs' & Hl' & Hf').
    rewrite He in Hf'.
    exists (evs ++ evs'). rewrite Hl', Hl, <- app_assoc. split; [reflexivity|].
    apply Forall_app. now split.
Qed.

(** [setup] changes the error of a run, not the world it leaves. *)
Lemma setup_final_world abspath exe exts headers commands w :
  final_world (setup abspath exe exts headers commands w)
    = final_world (run_commands abspath exe exts headers commands w).
Proof.
  unfold setup.
  destruct (run_commands abspath exe exts headers commands w) as [[] w1|[] w1];
    reflexivity.
Qed.

Lemma setup_events abspath exe exts headers commands w :
  let r := setup abspath exe exts headers commands w in
  exists evs, log (final_world r) = log w ++ evs /\
              Forall (script_event exe (environ w)) evs.
Proof.
  cbv zeta. rewrite setup_final_world. apply run_commands_events.
Qed.

Lemma resolve_prologue env which :
  resolve_cmake_exe (prologue_environ env) which = resolve_cmake_exe env which.
Proof.
  unfold resolve_cmake_exe, prologue_environ.
  rewrite lookup_insert_ne by discriminate.
  now rewrite lookup_insert_ne by discriminate.
Qed.

(** The two outcomes of the script. *)
Lemma setup_py_cases abspath python_lib platform version_info cythonize which
    commands w :
  let w0 := World (prologue_environ (environ w)) (trees w) (files w) (dirs w)
              (exit_status w) (std_fails w) (log w) (mtime w) (source_mtime w) in
  let exe := resolve_cmake_exe (environ w) which in
  setup_py abspath python_lib platform version_info cythonize which commands w =
    if falsy exe then Raise (SystemExit 1) (emit (EPrint missing_cmake_message) w0)
    else setup abspath (default "" exe)
           (cythonize (extensions abspath python_lib platform version_info))
           ["cpp/include/"] commands
           (emit (ERmTree "build") (remove_tree "build" w0)).
Proof.
  cbv zeta. unfold setup_py. run_m. unfold set_environ. simpl.
  fold (prologue_environ (environ w)). rewrite resolve_prologue.
  destruct (falsy (resolve_cmake_exe (environ w) which)); reflexivity.
Qed.

(** X5: when [CMAKE_EXE] is set, its value alone decides, whatever the
    search for [cmake] gives: when it is the empty string the script prints
    the message and ends with [exit(1)], even when [cmake] is on the search
    path; when it is not empty the script goes on to [shutil.rmtree('build')]
    without printing the message, even when [cmake] is not on the search
    path. *)
Theorem generator_override_decides abspath python_lib platform version_info
    cythonize which commands w v :
  environ w !! "CMAKE_EXE" = Some v ->
  let r := setup_py abspath python_lib platform version_info cythonize which
             commands w in
  (v = "" ->
   (exists w', r = Raise (SystemExit 1) w') /\
   trace_since w r = [EPrint missing_cmake_message]) /\
  (v <> "" -> exists tl, trace_since w r = ERmTree "build" :: tl).
Proof.
  intros Hv. cbv zeta. rewrite setup_py_cases. cbv zeta.
  unfold resolve_cmake_exe. rewrite Hv. split.
  - intros ->. simpl. split; [eauto|]. now apply trace_since_app.
  - intros Hne. destruct v as [|c v]; [now destruct Hne|]. simpl.
    match goal with |- context [setup ?a ?e ?x ?h ?c ?w1] =>
      destruct (setup_events a e x h c w1) as (evs & Hl & _) end.
    exists evs. apply trace_since_app. rewrite Hl. simpl. now rewrite <- app_assoc.
Qed.

Lemma generator_override_decides_witness :
  let w := fresh_world {["CMAKE_EXE" := ""]} ∅ 0 in
  let r := setup_py (fun p => p) "/usr/lib/python3.7/site-packages" "linux-x86_64"
             (3, 7) (fun l => l) (Some "/usr/bin/cmake")
             [build_ext_command (BuildExt false "build/temp" (fun n => "build/lib/" +:+ n))]
             w in
  ("" = "" ->
   (exists w', r = Raise (SystemExit 1) w') /\
   trace_since w r = [EPrint missing_cmake_message]) /\
  ("" <> "" -> exists tl, trace_since w r = ERmTree "build" :: tl).
Proof.
  apply (generator_override_decides (fun p => p) "/usr/lib/python3.7/site-packages"
           "linux-x86_64" (3, 7) (fun l => l) (Some "/usr/bin/cmake")
           [build_ext_command (BuildExt false "build/temp" (fun n => "build/lib/" +:+ n))]
           (fresh_world {["CMAKE_EXE" := ""]} ∅ 0) "").
  reflexivity.
Defined.



(** X7: every process that the script starts with [subprocess.check_call]
    is the resolved generator or [make], and it gets the two variables that
    the prologue assigns, [RMM_HEADER] and [CUDF_INCLUDE_DIR], with the values
    of the script, whatever their values were before. *)
Theorem children_get_prologue_environ abspath python_lib platform version_info
    cythonize which commands w exe argv cwd env :
  resolve_cmake_exe (environ w) which = Some exe ->
  Py.truthy exe = true ->
  let r := setup_py abspath python_lib platform version_info cythonize which
             commands w in
  In (argv, cwd, env) (children (trace_since w r)) ->
  env !! "RMM_HEADER" = Some "cpp/thirdparty/rmm/include/rmm/rmm_api.h" /\
  env !! "CUDF_INCLUDE_DIR" = Some "cpp/include/cudf" /\
  (head argv = Some exe \/ head argv = Some "make").
Proof.
  intros Hr Ht. cbv zeta. rewrite setup_py_cases. cbv zeta. rewrite Hr.
  replace (falsy (Some exe)) with false by (simpl; now rewrite Ht).
  match goal with |- context [setup ?a ?e ?x ?h ?c ?w1] =>
    destruct (setup_events a e x h c w1) as (evs & Hl & Hev) end.
  erewrite trace_since_app; [|rewrite Hl; simpl; now rewrite <- app_assoc].
  simpl in Hev. simpl. clear Hl. induction Hev as [|e evs He _ IH]; [intros []|].
  destruct e; simpl in *; try exact IH.
  intros [[= <- <- <-]|Hin]; [|now apply IH].
  destruct He as [-> Hh]. unfold prologue_environ.
  split; [|split; [|exact Hh]].
  - rewrite lookup_insert_ne by discriminate. apply lookup_insert_eq.
  - apply lookup_insert_eq.
Qed.

Lemma children_get_prologue_environ_witness :
  prologue_environ {["RMM_HEADER" := "elsewhere.h"]} !! "RMM_HEADER"
    = Some "cpp/thirdparty/rmm/include/rmm/rmm_api.h" /\
  prologue_environ {["RMM_HEADER" := "elsewhere.h"]} !! "CUDF_INCLUDE_DIR"
    = Some "cpp/include/cudf" /\
  (head ["make"; "-j"; "rmm"] = Some "/usr/bin/cmake" \/
   head ["make"; "-j"; "rmm"] = Some "make").
Proof.
  apply (children_get_prologue_environ (fun p => p)
           "/usr/lib/python3.7/site-packages" "linux-x86_64" (3, 7) (fun l => l)
           (Some "/usr/bin/cmake")
           [build_ext_command (BuildExt false "build/temp" (fun n => "build/lib/" +:+ n))]
           (fresh_world {["RMM_HEADER" := "elsewhere.h"]} ∅ 0) "/usr/bin/cmake"
           ["make"; "-j"; "rmm"] "build/temp").
  - reflexivity.
  - reflexivity.
  - apply list_elem_of_In. apply (bool_decide_unpack _). exact I.
Defined.

(** ** The values read from the environment *)

Lemma split_no_sep sep s x : In x (Py.split sep s) -> Py.mem sep x = false.
Proof.
  revert x. induction s as [|c s IH]; intros x H; simpl in H.
  - destruct H as [<-|[]]. reflexivity.
  - destruct (Ascii.eqb c sep) eqn:E.
    + destruct H as [<-|H]; [reflexivity | now apply IH].
    + destruct (split_nonempty sep s) as (t & ts & Hs). rewrite Hs in *.
      destruct H as [<-|H].
      * simpl. rewrite Ascii.eqb_sym, E. simpl. apply IH. now left.
      * apply IH. now right.
Qed.

Lemma split_spaces n : List.filter Py.truthy (Py.split " " (repeat_char " " n)) = [].
Proof. induction n as [|n IH]; [reflexivity | exact IH]. Qed.

(** X8: the extra generator arguments are never empty and never hold a
    space; there is none when [CMAKE_COMMON_VARIABLES] is unset or holds
    spaces only, and the generator then gets exactly its four arguments. *)
Theorem extra_arguments_well_formed abspath exe self ext (env : gmap string string) :
  (forall x, In x (common_variables env) ->
     Py.truthy x = true /\ Py.mem " " x = false) /\
  (env !! "CMAKE_COMMON_VARIABLES" = None \/
   (exists n, env !! "CMAKE_COMMON_VARIABLES" = Some (repeat_char " " n)) ->
   cmake_args abspath exe self ext env
     = [exe; CMakeExtension.sourcedir ext;
        "-DCMAKE_LIBRARY_OUTPUT_DIRECTORY=" +:+ output_dir abspath self ext;
        "-DCMAKE_BUILD_TYPE=" +:+ build_type self]).
Proof.
  split.
  - intros x H. unfold common_variables in H. apply filter_In in H as [H Ht].
    split; [exact Ht | now apply split_no_sep in H].
  - intros H. unfold cmake_args, common_variables, environ_get.
    destruct H as [-> | [n ->]]; simpl; [reflexivity|].
    now rewrite split_spaces.
Qed.

Lemma mem_app c a b : Py.mem c (a +:+ b) = Py.mem c a || Py.mem c b.
Proof.
  induction a as [|d a IH]; [reflexivity|]. simpl. now rewrite IH, orb_assoc.
Qed.

Lemma split_app_sep sep a b :
  Py.mem sep a = false ->
  Py.split sep (a +:+ String sep b) = a :: Py.split sep b.
Proof.
  induction a as [|c a IH]; intros H; simpl.
  - now rewrite Ascii.eqb_refl.
  - simpl in H. apply orb_false_iff in H as [Hc Ha].
    rewrite Ascii.eqb_sym, Hc, (IH Ha). reflexivity.
Qed.

Lemma split_no_sep_id sep a : Py.mem sep a = false -> Py.split sep a = [a].
Proof.
  induction a as [|c a IH]; intros H; simpl; [reflexivity|].
  simpl in H. apply orb_false_iff in H as [Hc Ha].
  rewrite Ascii.eqb_sym, Hc, (IH Ha). reflexivity.
Qed.

Lemma concat_no_sep c l :
  (forall x, In x l -> Py.mem c x = false) -> Py.mem c (String.concat "" l) = false.
Proof.
  induction l as [|x l IH]; intros H; [reflexivity|].
  assert (Hx : Py.mem c x = false) by (apply H; now left).
  assert (Hl : Py.mem c (String.concat "" l) = false)
    by (apply IH; intros y Hy; apply H; now right).
  destruct l as [|y l]; [exact Hx|].
  cbn [String.concat]. rewrite mem_app, Hx. exact Hl.
Qed.

(** X9: the suffix that the version of the toolkit gives to the name of
    the package and to the [nvstrings] requirement never holds a dot: it is
    made of the first two fields of [CUDA], and is [unknown] when the
    variable is unset. *)
Theorem cuda_version_has_no_dot (env : gmap string string) :
  Py.mem "." (cuda_version env) = false /\
  (env !! "CUDA" = None ->
   package_name env = "cudf-cudaunknown" /\
   nvstrings_requirement env = "nvstrings-cudaunknown").
Proof.
  split.
  - unfold cuda_version. apply concat_no_sep. intros x H.
    apply (split_no_sep "." (environ_get env "CUDA" "unknown")).
    apply list_elem_of_In, elem_of_take in H as (i & H & _).
    apply list_elem_of_In, list_elem_of_lookup. eauto.
  - intros H. unfold package_name, nvstrings_requirement, cuda_version, environ_get.
    rewrite H. split; reflexivity.
Qed.

(** X10: for a toolkit version [major.minor] or [major.minor.more] the
    suffix is [major] followed by [minor]: the dot between them and
    everything from the second dot on are dropped. A version without a dot is
    kept as it is. *)
Theorem cuda_version_major_minor (env : gmap string string) major minor more :
  Py.mem "." major = false ->
  Py.mem "." minor = false ->
  env !! "CUDA" = Some (major +:+ "." +:+ minor +:+ more) ->
  more = "" \/ Py.startswith "." more = true ->
  cuda_version env = major +:+ minor /\
  cuda_version (<["CUDA" := major]> env) = major.
Proof.
  intros Hj Hn He Hm. split.
  - unfold cuda_version, environ_get. rewrite He. simpl default.
    change (major +:+ "." +:+ minor +:+ more)
      with (major +:+ String "." (minor +:+ more)).
    rewrite split_app_sep by exact Hj.
    destruct Hm as [-> | Hm].
    + rewrite app_empty_r. rewrite split_no_sep_id by exact Hn. reflexivity.
    + destruct more as [|c more]; [discriminate|]. simpl in Hm.
      destruct (Ascii.eqb_spec "." c) as [<-|]; [|discriminate].
      rewrite split_app_sep by exact Hn. reflexivity.
  - unfold cuda_version, environ_get. rewrite lookup_insert_eq. simpl default.
    rewrite split_no_sep_id by exact Hj. reflexivity.
Qed.

Lemma cuda_version_major_minor_witness :
  cuda_version {["CUDA" := "10.1.243"]} = "10" +:+ "1" /\
  cuda_version (<["CUDA" := "10"]> {["CUDA" := "10.1.243"]}) = "10".
Proof.
  apply (cuda_version_major_minor {["CUDA" := "10.1.243"]} "10" "1" ".243").
  - reflexivity.
  - reflexivity.
  - reflexivity.
  - right. reflexivity.
Defined.

(** ** More on the header installer *)


Lemma foldl_do_install_dirs l : forall st p,
  p ∈ dirs st.2 -> p ∈ dirs (foldl do_install st l).2.
Proof.
  induction l as [|i l IH]; intros st p H; [exact H|].
  cbn [foldl]. apply IH.
  destruct (do_install_spec st i) as (_ & _ & _ & _ & _ & _ & _ & -> & _).
  apply elem_of_union. now right.
Qed.

Lemma foldl_do_install_environ l : forall st,
  environ (foldl do_install st l).2 = environ st.2.
Proof.
  induction l as [|i l IH]; intros st; [reflexivity|].
  cbn [foldl]. rewrite IH.
  now destruct (do_install_spec st i) as (_ & _ & _ & _ & -> & _).
Qed.

(** After a copy, whether it wrote or not, the destination is in place. *)
Lemma do_install_present st i :
  is_Some (files (do_install st i).2 !! install_dst i).
Proof.
  rewrite do_install_files.
  destruct (decide (install_dst i = install_dst i)); [|congruence].
  destruct (install_copies st i) eqn:Hc; [eauto|].
  now apply install_skips_present in Hc as (_ & H & _).
Qed.

(** Every copy of [l] leaves its destination and the directory above it. *)
Lemma foldl_do_install_present l i : forall st,
  In i l ->
  is_Some (files (foldl do_install st l).2 !! install_dst i) /\
  posixpath.dirname (install_dst i) ∈ dirs (foldl do_install st l).2.
Proof.
  induction l as [|j l IH] using rev_ind; intros st Hin; [destruct Hin|].
  rewrite foldl_app. cbn [foldl].
  destruct (do_install_spec (foldl do_install st l) j)
    as (_ & _ & _ & _ & _ & _ & _ & Hdirs & _).
  apply in_app_or in Hin as [Hin|[->|[]]].
  - destruct (IH st Hin) as [Hf Hd]. split.
    + rewrite do_install_files.
      destruct (decide (install_dst j = install_dst i)); [|exact Hf].
      destruct (install_copies _ j); [eauto | exact Hf].
    + rewrite Hdirs. apply elem_of_union. now right.
  - split; [apply do_install_present|].
    rewrite Hdirs. apply elem_of_union. left. now apply elem_of_singleton.
Qed.

Lemma spawned_install_events l : spawned (flat_map install_events l) = [].
Proof. induction l as [|i l IH]; [reflexivity | exact IH]. Qed.

Lemma run_new_records self headers w :
  drop (length (outfiles self)) (outfiles (run self headers w).1)
    = map install_dst (installs (install_dir self) w headers).
Proof. rewrite run_outfiles. apply drop_app_length. Qed.

(** X11: every record that [run] adds to [outfiles] names a file that
    exists after the run, whether the run wrote it or found it up to date, in
    a directory that exists after the run, and [run] has called [copy_file]
    for it. *)
Theorem records_are_installed self headers w t :
  In t (drop (length (outfiles self)) (outfiles (run self headers w).1)) ->
  is_Some (files (run self headers w).2 !! t) /\
  posixpath.dirname t ∈ dirs (run self headers w).2 /\
  exists p, In (ECopyFile p t)
              (drop (length (log w)) (log (run self headers w).2)).
Proof.
  rewrite run_new_records. intros H.
  apply in_map_iff in H as (i & <- & Hi).
  destruct headers as [|h headers]; [destruct Hi|].
  rewrite run_eq.
  destruct (foldl_do_install_present _ i (self, mkpath (install_dir self) w) Hi)
    as [Hf Hd].
  split; [exact Hf|]. split; [exact Hd|].
  exists i.1.1. rewrite <- run_eq. apply run_copies. exists i.2.
  now destruct i as [[p t] d].
Qed.

Lemma records_are_installed_witness :
  is_Some (files (run (InstallHeaders "inst" []) ["cpp/include/"] include_world).2
             !! "inst/cudf/types.h") /\
  posixpath.dirname "inst/cudf/types.h"
    ∈ dirs (run (InstallHeaders "inst" []) ["cpp/include/"] include_world).2 /\
  exists p, In (ECopyFile p "inst/cudf/types.h")
              (drop (length (log include_world))
                 (log (run (InstallHeaders "inst" []) ["cpp/include/"]
                         include_world).2)).
Proof.
  apply (records_are_installed (InstallHeaders "inst" []) ["cpp/include/"]
           include_world "inst/cudf/types.h").
  left. reflexivity.
Defined.

(** X12: [run] writes no file but the destinations it records: every
    other file is as it was, no directory disappears, [os.environ] is
    unchanged and [run] starts no process with [subprocess.check_call]. *)
Theorem run_writes_only_records self headers w :
  (forall t,
     ~ In t (drop (length (outfiles self)) (outfiles (run self headers w).1)) ->
     files (run self headers w).2 !! t = files w !! t) /\
  dirs w ⊆ dirs (run self headers w).2 /\
  environ (run self headers w).2 = environ w /\
  spawned (drop (length (log w)) (log (run self headers w).2)) = [].
Proof.
  rewrite run_new_records.
  destruct headers as [|h headers].
  - simpl. rewrite drop_all. repeat split; auto.
  - rewrite run_eq, <- run_eq at 1. rewrite run_log, drop_app_length.
    rewrite run_eq. repeat split.
    + intros t Ht. now rewrite foldl_do_install_other.
    + intros p Hp. apply foldl_do_install_dirs. simpl.
      apply elem_of_union. now right.
    + now rewrite foldl_do_install_environ.
    + simpl. apply spawned_install_events.
Qed.

Lemma copy_after_mkpath x l i p t :
  (x :: flat_map install_events l) !! S i = Some (ECopyFile p t) ->
  (x :: flat_map install_events l) !! i = Some (EMkPath (posixpath.dirname t)).
Proof.
  revert x i. induction l as [|j l IH]; intros x i H.
  - destruct i; discriminate H.
  - cbn [flat_map install_events app] in *.
    destruct i as [|[|i]].
    + discriminate H.
    + simpl in H. injection H as _ <-. reflexivity.
    + exact (IH (ECopyFile j.1.1 (install_dst j)) i H).
Qed.

(** X13: with at least one header root, [run] first makes the install
    directory, and each copy comes right after the call that makes the
    directory of its destination. *)
Theorem directory_made_before_copy self h headers w :
  let evs := drop (length (log w)) (log (run self (h :: headers) w).2) in
  evs !! 0 = Some (EMkPath (install_dir self)) /\
  forall i p t,
    evs !! S i = Some (ECopyFile p t) ->
    evs !! i = Some (EMkPath (posixpath.dirname t)).
Proof.
  cbv zeta. rewrite run_log, drop_app_length. split; [reflexivity|].
  intros i p t. apply copy_after_mkpath.
Qed.

Lemma os_walk_missing w h :
  trees w !! h = None \/ (exists data, trees w !! h = Some (File data)) ->
  os_walk w h = [].
Proof. unfold os_walk. intros [-> | [data ->]]; reflexivity. Qed.

(** X14: a header root that does not exist, or that is a regular file, is
    passed over without an error: when no declared root is a directory, [run]
    makes the install directory and does nothing else. *)
Theorem missing_roots_are_skipped self h headers w :
  (forall r, In r (h :: headers) ->
     trees w !! r = None \/ exists data, trees w !! r = Some (File data)) ->
  drop (length (log w)) (log (run self (h :: headers) w).2)
    = [EMkPath (install_dir self)] /\
  outfiles (run self (h :: headers) w).1 = outfiles self /\
  files (run self (h :: headers) w).2 = files w.
Proof.
  intros Hmiss.
  assert (Hi : installs (install_dir self) w (h :: headers) = []).
  { unfold installs. generalize dependent (h :: headers). intros l Hl.
    induction l as [|r l IH]; [reflexivity|].
    simpl. unfold header_installs at 1. rewrite os_walk_missing by (apply Hl; now left).
    simpl. apply IH. intros r' Hr'. apply Hl. now right. }
  rewrite run_log, drop_app_length, run_outfiles, run_eq, Hi. simpl.
  now rewrite app_nil_r.
Qed.

Lemma missing_roots_are_skipped_witness :
  drop (length (log no_slash_world))
    (log (run (InstallHeaders "inst" []) ("cpp/include/" :: ["include"])
            no_slash_world).2)
    = [EMkPath (install_dir (InstallHeaders "inst" []))] /\
  outfiles (run (InstallHeaders "inst" []) ("cpp/include/" :: ["include"])
              no_slash_world).1 = outfiles (InstallHeaders "inst" []) /\
  files (run (InstallHeaders "inst" []) ("cpp/include/" :: ["include"])
           no_slash_world).2 = files no_slash_world.
Proof.
  apply (missing_roots_are_skipped (InstallHeaders "inst" []) "cpp/include/"
           ["include"] no_slash_world).
  intros r [<-|[<-|[]]]; left; reflexivity.
Defined.

(** With [force], the content of a destination of [l] after the copies of
    [l] does not depend on the files before. *)
Lemma foldl_do_install_last l t : forall st st',
  force st.1 = true -> force st'.1 = true ->
  In t (map install_dst l) ->
  files (foldl do_install st l).2 !! t = files (foldl do_install st' l).2 !! t.
Proof.
  induction l as [|i l IH] using rev_ind; intros st st' Hf Hf' Hin; [destruct Hin|].
  rewrite !foldl_app. cbn [foldl]. rewrite !do_install_files.
  assert (Hc : forall s, force s.1 = true ->
            install_copies (foldl do_install s l) i = true).
  { intros s Hs. unfold install_copies, copies.
    destruct (foldl_do_install_force l s) as [-> _]. now rewrite Hs. }
  rewrite (Hc st Hf), (Hc st' Hf').
  destruct (decide (install_dst i = t)) as [E|E]; [reflexivity|].
  apply IH; [exact Hf | exact Hf'|].
  rewrite map_app in Hin. apply in_app_or in Hin as [Hin|[Hin|[]]];
    [exact Hin | contradiction].
Qed.

(** Without [force], a file that is in place stays in place and a copy
    never makes it older. *)
Lemma foldl_do_install_mtime l t z : forall st,
  force st.1 = false ->
  is_Some (files st.2 !! t) ->
  (z <= mtime st.2 t)%Z ->
  is_Some (files (foldl do_install st l).2 !! t) /\
  (z <= mtime (foldl do_install st l).2 t)%Z.
Proof.
  induction l as [|i l IH]; intros st Hf Hs Hz; [now split|].
  cbn [foldl].
  destruct (do_install_spec st i) as (_ & Hfo & _ & _ & _ & _ & _ & _ & _ & Hm).
  apply IH.
  - now rewrite Hfo.
  - rewrite do_install_files.
    destruct (decide (install_dst i = t)); [|exact Hs].
    destruct (install_copies st i); [eauto | exact Hs].
  - rewrite Hm. destruct (install_copies st i) eqn:Hc; [|exact Hz].
    destruct (String.eqb_spec t (install_dst i)) as [E|E]; [|exact Hz].
    unfold install_copies, copies, newer in Hc. rewrite Hf in Hc. simpl in Hc.
    rewrite <- E in Hc. destruct Hs as [x Hx]. rewrite Hx in Hc.
    apply Z.ltb_lt in Hc. lia.
Qed.

(** Without [force], after the copies of [l] every destination of [l] is
    in place and at least as new as each of its sources. *)
Lemma foldl_do_install_settles l i : forall st,
  force st.1 = false ->
  In i l ->
  is_Some (files (foldl do_install st l).2 !! install_dst i) /\
  (source_mtime st.2 i.1.1 <= mtime (foldl do_install st l).2 (install_dst i))%Z.
Proof.
  induction l as [|j l IH]; intros st Hf Hin; [destruct Hin|].
  cbn [foldl].
  destruct (do_install_spec st j) as (_ & Hfo & _ & _ & _ & Hsm & _ & _ & _ & Hm).
  destruct Hin as [->|Hin].
  - apply foldl_do_install_mtime.
    + now rewrite Hfo.
    + apply do_install_present.
    + rewrite Hm. destruct (install_copies st i) eqn:Hc.
      * rewrite String.eqb_refl. lia.
      * now apply install_skips_present in Hc as (_ & _ & H).
  - rewrite <- Hsm. apply IH; [now rewrite Hfo | exact Hin].
Qed.

(** Without [force], copies whose destinations are all in place and up to
    date write nothing. *)
Lemma foldl_do_install_settled l : forall st,
  force st.1 = false ->
  (forall i, In i l ->
     is_Some (files st.2 !! install_dst i) /\
     (source_mtime st.2 i.1.1 <= mtime st.2 (install_dst i))%Z) ->
  files (foldl do_install st l).2 = files st.2.
Proof.
  induction l as [|i l IH]; intros st Hf Hall; [reflexivity|].
  cbn [foldl].
  assert (Hc : install_copies st i = false).
  { destruct (Hall i (or_introl eq_refl)) as [[x Hx] Hz].
    unfold install_copies, copies, newer. rewrite Hf, Hx. simpl.
    now apply Z.ltb_ge. }
  destruct (do_install_spec st i)
    as (_ & Hfo & _ & _ & _ & Hsm & _ & _ & Hfi & Hm).
  rewrite Hc in Hfi, Hm.
  rewrite IH; [exact Hfi | now rewrite Hfo|].
  intros j Hj. rewrite Hfi, Hm, Hsm. apply Hall. now right.
Qed.

Lemma foldl_do_install_twice self w l :
  let st1 := foldl do_install (self, mkpath (install_dir self) w) l in
  files (foldl do_install (st1.1, mkpath (install_dir st1.1) st1.2) l).2
    = files st1.2.
Proof.
  cbv zeta.
  set (st0 := (self, mkpath (install_dir self) w)).
  set (st1 := foldl do_install st0 l).
  assert (Hfo : force st1.1 = force self)
    by (unfold st1; now destruct (foldl_do_install_force l st0) as [-> _]).
  destruct (force self) eqn:Hforce.
  - apply map_eq. intros t.
    destruct (in_dec String.string_dec t (map install_dst l)) as [Hin|Hn].
    + now apply foldl_do_install_last.
    + now rewrite foldl_do_install_other.
  - rewrite foldl_do_install_settled; [reflexivity | exact Hfo|].
    intros i Hi. simpl.
    destruct (foldl_do_install_settles l i st0 Hforce Hi) as [Hs Hz].
    split; [exact Hs|].
    unfold st1. destruct (foldl_do_install_force l st0) as [_ ->]. exact Hz.
Qed.

Lemma installs_after self headers w l st :
  st = foldl do_install (self, mkpath (install_dir self) w) l \/ st = (self, w) ->
  installs (install_dir st.1) st.2 headers = installs (install_dir self) w headers.
Proof.
  intros [-> | ->]; [|reflexivity].
  destruct (foldl_do_install_inv l (self, mkpath (install_dir self) w)) as [Hd Ht].
  rewrite Hd. unfold installs. apply flat_map_ext. intros h.
  now apply header_installs_trees.
Qed.

(** X15: running the installer again over the same header roots leaves
    every installed file as the first run left it; the records of the second
    run are added after those of the first. *)
Theorem reinstall_keeps_files self headers w :
  let st1 := run self headers w in
  let st2 := run st1.1 headers st1.2 in
  files st2.2 = files st1.2 /\
  outfiles st2.1
    = outfiles st1.1 ++ map install_dst (installs (install_dir self) w headers).
Proof.
  cbv zeta. destruct headers as [|h headers].
  - simpl. now rewrite app_nil_r.
  - rewrite run_outfiles. rewrite !run_eq.
    set (l := installs (install_dir self) w (h :: headers)).
    set (st1 := foldl do_install (self, mkpath (install_dir self) w) l).
    assert (Hl : installs (install_dir st1.1) st1.2 (h :: headers) = l)
      by (apply (installs_after _ _ _ l); now left).
    rewrite Hl. split; [|reflexivity].
    apply foldl_do_install_twice.
Qed.


(** X17: a header root declared without its trailing slash sends its
    headers outside of the install directory: the path of a header below the
    root, once the root is removed from it, starts with a slash, and
    [os.path.join] then drops the install directory, so the header is copied
    to the absolute path made of a slash and its path below the root,
    whatever the install directory is. *)
Theorem root_without_slash_ignores_install_dir self headers w h root ds dirpath
    entries f data :
  In h headers ->
  Py.truthy h = true ->
  Py.endswith "/" h = false ->
  trees w !! h = Some root ->
  subdir h root ds dirpath entries ->
  In (f, File data) entries ->
  Py.endswith ".h" f = true ->
  Forall valid_name (ds ++ [f]) ->
  let rel := String.concat "/" (ds ++ [f]) in
  occurs h ("/" +:+ rel) = false ->
  In (ECopyFile (h +:+ "/" +:+ rel) ("/" +:+ rel))
     (drop (length (log w)) (log (run self headers w).2)) /\
  In ("/" +:+ rel)
     (drop (length (outfiles self)) (outfiles (run self headers w).1)).
Proof.
  intros Hh Ht Hs Htr Hsub Hf Hsuf Hv rel Hocc.
  assert (Hpath : posixpath.join dirpath f = h +:+ "/" +:+ rel).
  { rewrite (subdir_dirpath _ _ _ _ _ Hsub).
    change (posixpath.join (foldl posixpath.join h ds) f)
      with (foldl posixpath.join (foldl posixpath.join h ds) [f]).
    rewrite <- foldl_app.
    rewrite join_names; [|exact Ht|exact Hv|now destruct ds].
    rewrite Hs. now rewrite app_assoc_str. }
  assert (Hin : In (h +:+ "/" +:+ rel, "/" +:+ rel, data)
                  (installs (install_dir self) w headers)).
  { apply (installs_In _ _ _ h); [exact Hh|].
    pose proof (header_installs_In (install_dir self) w h root ds dirpath entries
                  f data Htr Hsub Hf Hsuf) as H.
    rewrite Hpath in H. rewrite replace_root in H by assumption.
    exact H. }
  destruct headers as [|h0 headers]; [destruct Hh|]. split.
  - apply run_copies. eauto.
  - rewrite run_new_records. now apply (in_map install_dst) in Hin.
Qed.

Lemma root_without_slash_ignores_install_dir_witness :
  In (ECopyFile ("cpp/include" +:+ "/" +:+ "cudf/types.h") ("/" +:+ "cudf/types.h"))
     (drop (length (log no_slash_world))
        (log (run (InstallHeaders "inst" []) ["cpp/include"] no_slash_world).2)) /\
  In ("/" +:+ "cudf/types.h")
     (drop (length (outfiles (InstallHeaders "inst" [])))
        (outfiles (run (InstallHeaders "inst" []) ["cpp/include"] no_slash_world).1)).
Proof.
  apply (root_without_slash_ignores_install_dir (InstallHeaders "inst" [])
           ["cpp/include"] no_slash_world "cpp/include"
           (Dir [("cudf", Dir [("types.h", File "typedef int gdf_size_type;")])])
           ["cudf"] "cpp/include/cudf"
           [("types.h", File "typedef int gdf_size_type;")]
           "types.h" "typedef int gdf_size_type;").
  - left. reflexivity.
  - reflexivity.
  - reflexivity.
  - reflexivity.
  - eapply subdir_step.
    + left. reflexivity.
    + exact (subdir_top "cpp/include/cudf" _).
  - left. reflexivity.
  - reflexivity.
  - repeat constructor.
  - reflexivity.
Defined.
